(** * The FHE debugger front end: graph translator and selection coordinator

    A shallow embedding of [fhe-debugger-frontend/src/App.tsx]: the
    translator [dataToGraph], the parsed [sampleData] payload, and the two
    event handlers of [App], [updateLine] and [updateSelection].

    The translator is typed [FheProgramGraph] in the source, but its only
    caller hands it the result of [JSON.parse], which is [any]; what runs is
    JavaScript on an arbitrary JSON value.  The embedding therefore has two
    layers: JavaScript values with the property reads the source performs,
    and the TypeScript types of the source with their run-time shape. *)

From Stdlib Require Import ZArith List String Ascii Bool Lia.
From Stdlib Require DecimalString DecimalZ DecimalPos.
Import ListNotations.

Local Open Scope string_scope.
Local Open Scope Z_scope.

(** ** JavaScript values *)

Module Js.

#[local] Set Warnings "-register-all".

(** The values [JSON.parse] builds, plus [undefined], which a property read
    produces.  A number is an integer-valued double in the range where
    JavaScript prints it in plain decimal; a string is a sequence of code
    units, one [ascii] each.  [JObj] lists the own properties of a plain
    object in enumeration order, one entry per key. *)
Inductive JsVal : Type :=
| JUndefined
| JNull
| JBool (b : bool)
| JNum (n : Z)
| JStr (s : string)
| JArr (elems : list JsVal)
| JObj (props : list (string * JsVal)).

(** How the evaluation of an expression or statement ends.  The only
    exception this program can raise is the [TypeError] of a property read
    on [undefined] or [null] (or of a call of a non-function).
    [NotModelled] marks the one place where the embedding stops short of
    JavaScript: comparing the loop counter with a bound that is a string or
    an object, which needs [ToPrimitive] and [StringToNumber]. *)
Inductive Completion (A : Type) : Type :=
| Normal (a : A)
| TypeError
| NotModelled.

Arguments Normal {A} a.
Arguments TypeError {A}.
Arguments NotModelled {A}.

Definition cbind {A B} (c : Completion A) (k : A -> Completion B) : Completion B :=
  match c with
  | Normal a => k a
  | TypeError => TypeError
  | NotModelled => NotModelled
  end.

Notation "'let*' x ':=' c 'in' k" := (cbind c (fun x => k))
  (at level 10, x name, c at level 100, k at level 200).

(** [Number::toString] on an integer. *)
Definition NumberToString (n : Z) : string :=
  DecimalString.NilZero.string_of_int (Z.to_int n).

Fixpoint lookup (k : string) (props : list (string * JsVal)) : JsVal :=
  match props with
  | [] => JUndefined
  | (k', v) :: rest => if String.eqb k k' then v else lookup k rest
  end.

Definition char_at (s : string) (i : Z) : JsVal :=
  if i <? 0 then JUndefined
  else match String.get (Z.to_nat i) s with
       | Some c => JStr (String c EmptyString)
       | None => JUndefined
       end.

Definition elem_at (l : list JsVal) (i : Z) : JsVal :=
  if i <? 0 then JUndefined
  else match nth_error l (Z.to_nat i) with
       | Some v => v
       | None => JUndefined
       end.

(** [v.k] for the property names this program reads: [nodes], [edges],
    [operation], [kind], [data] and [length].  None of them is a property
    of a built-in prototype, [length] of arrays and strings apart. *)
Definition get (v : JsVal) (k : string) : Completion JsVal :=
  match v with
  | JUndefined | JNull => TypeError
  | JBool _ | JNum _ => Normal JUndefined
  | JStr s =>
      Normal (if String.eqb k "length" then JNum (Z.of_nat (String.length s))
              else JUndefined)
  | JArr l =>
      Normal (if String.eqb k "length" then JNum (Z.of_nat (List.length l))
              else JUndefined)
  | JObj props => Normal (lookup k props)
  end.

(** [v[i]] for a number [i] that is a non-negative integer. *)
Definition get_idx (v : JsVal) (i : Z) : Completion JsVal :=
  match v with
  | JUndefined | JNull => TypeError
  | JBool _ | JNum _ => Normal JUndefined
  | JStr s => Normal (char_at s i)
  | JArr l => Normal (elem_at l i)
  | JObj props => Normal (lookup (NumberToString i) props)
  end.

(** [a === b] where [b] is a string literal. *)
Definition strict_eq_str (a : JsVal) (lit : string) : bool :=
  match a with
  | JStr s => String.eqb s lit
  | _ => false
  end.

(** [i < v] for a number [i]: [undefined] converts to [NaN], [null] to 0,
    [false] to 0 and [true] to 1. *)
Definition lt_num (i : Z) (v : JsVal) : Completion bool :=
  match v with
  | JUndefined => Normal false
  | JNull => Normal (i <? 0)
  | JBool b => Normal (i <? (if b then 1 else 0))
  | JNum n => Normal (i <? n)
  | JStr _ | JArr _ | JObj _ => NotModelled
  end.

(** *** [JSON.stringify] *)

Definition dquote : ascii := "034"%char.
Definition backslash : ascii := "092"%char.

Definition hex_digit (n : nat) : ascii :=
  match n with
  | 0%nat => "0" | 1%nat => "1" | 2%nat => "2" | 3%nat => "3"
  | 4%nat => "4" | 5%nat => "5" | 6%nat => "6" | 7%nat => "7"
  | 8%nat => "8" | 9%nat => "9" | 10%nat => "a" | 11%nat => "b"
  | 12%nat => "c" | 13%nat => "d" | 14%nat => "e" | _ => "f"
  end%char.

(** One code unit of [QuoteJSONString]. *)
Definition quote_unit (c : ascii) : string :=
  let n := nat_of_ascii c in
  if Ascii.eqb c dquote then String backslash (String dquote EmptyString)
  else if Ascii.eqb c backslash then String backslash (String backslash EmptyString)
  else if Nat.eqb n 8 then String backslash "b"
  else if Nat.eqb n 9 then String backslash "t"
  else if Nat.eqb n 10 then String backslash "n"
  else if Nat.eqb n 12 then String backslash "f"
  else if Nat.eqb n 13 then String backslash "r"
  else if Nat.ltb n 32 then
    String backslash
      ("u00" ++ String (hex_digit (n / 16)) (String (hex_digit (n mod 16)) EmptyString))
  else String c EmptyString.

Fixpoint quote_units (s : string) : string :=
  match s with
  | EmptyString => EmptyString
  | String c rest => quote_unit c ++ quote_units rest
  end.

Definition QuoteJSONString (s : string) : string :=
  String dquote (quote_units s ++ String dquote EmptyString).

Fixpoint join_comma (l : list string) : string :=
  match l with
  | [] => EmptyString
  | [x] => x
  | x :: rest => x ++ "," ++ join_comma rest
  end.

(** [SerializeJSONProperty]: [None] is the [undefined] it gives for
    [undefined].  No value here has a callable [toJSON]. *)
Fixpoint serialize (v : JsVal) : option string :=
  match v with
  | JUndefined => None
  | JNull => Some "null"
  | JBool b => Some (if b then "true" else "false")
  | JNum n => Some (NumberToString n)
  | JStr s => Some (QuoteJSONString s)
  | JArr l =>
      Some ("[" ++ join_comma
                     (map (fun x => match serialize x with
                                    | Some s => s
                                    | None => "null"
                                    end) l) ++ "]")
  | JObj props =>
      Some ("{" ++ join_comma
                     (flat_map (fun kv => match serialize (snd kv) with
                                          | Some s => [QuoteJSONString (fst kv) ++ ":" ++ s]
                                          | None => []
                                          end) props) ++ "}")
  end.

(** [JSON.stringify(v)] as a value. *)
Definition JSON_stringify (v : JsVal) : JsVal :=
  match serialize v with
  | Some s => JStr s
  | None => JUndefined
  end.

End Js.

Import Js.


(** ** The graph translator *)

(** The value [dataToGraph] returns, [{nodes: any[], edges: any[]}]; it is
    also the type of the [currGraph] state of [App]. *)
Record RenderGraph : Type := { nodes : list JsVal; edges : list JsVal }.

(** *** Expressions

    The expressions of [dataToGraph] only read: each is a function of the
    value of [data]. *)

(** [data.nodes.length] and [data.edges.length] *)
Definition nodes_length (data : JsVal) : Completion JsVal :=
  let* ns := get data "nodes" in get ns "length".

Definition edges_length (data : JsVal) : Completion JsVal :=
  let* es := get data "edges" in get es "length".

(** [data.nodes[i].operation] *)
Definition node_operation (data : JsVal) (i : Z) : Completion JsVal :=
  let* ns := get data "nodes" in
  let* n := get_idx ns i in
  get n "operation".

(** The arm [switch (op.kind)] runs: the labels [Multiply], [Add],
    [Relinearize] and [OutputCiphertext] have no statements of their own
    and fall through to the body of [default]. *)
Inductive Arm : Type := ArmInputCiphertext | ArmDefault.

Definition switch_kind (kind : JsVal) : Arm :=
  if strict_eq_str kind "InputCiphertext" then ArmInputCiphertext
  else if strict_eq_str kind "Multiply" then ArmDefault
  else if strict_eq_str kind "Add" then ArmDefault
  else if strict_eq_str kind "Relinearize" then ArmDefault
  else if strict_eq_str kind "OutputCiphertext" then ArmDefault
  else ArmDefault.

(** The object the body of the first loop pushes at index [i]. *)
Definition node_object (data : JsVal) (i : Z) : Completion JsVal :=
  let* op := node_operation data i in
  let* kind := get op "kind" in
  match switch_kind kind with
  | ArmInputCiphertext =>
      let* slot := get op "data" in
      Normal (JObj [("id", JNum i); ("title", JSON_stringify slot);
                    ("type", JStr "input")])
  | ArmDefault =>
      let* op' := node_operation data i in
      Normal (JObj [("id", JNum i); ("title", JSON_stringify op');
                    ("type", JStr "empty")])
  end.

(** [data.edges[i][j]] *)
Definition edge_component (data : JsVal) (i j : Z) : Completion JsVal :=
  let* es := get data "edges" in
  let* e := get_idx es i in
  get_idx e j.

(** The object the body of the second loop pushes at index [i]. *)
Definition edge_object (data : JsVal) (i : Z) : Completion JsVal :=
  let* s := edge_component data i 0 in
  let* t := edge_component data i 1 in
  let* ty := edge_component data i 2 in
  Normal (JObj [("source", s); ("target", t); ("type", ty)]).

(** *** Statements *)

(** The variables in scope during one call of [dataToGraph]: the argument
    [data], that is the object graph the caller owns, and the two arrays
    the call creates. *)
Module Frame.
Record t : Type := { data : JsVal; nodes : list JsVal; edges : list JsVal }.
End Frame.

(** A statement transforms a state and completes normally or abruptly.  The
    state is kept on an abrupt completion: what ran before the throw has
    happened. *)
Definition Stmt (S A : Type) : Type := S -> S * Completion A.

Definition ret {S A} (a : A) : Stmt S A := fun s => (s, Normal a).

Definition bind {S A B} (m : Stmt S A) (k : A -> Stmt S B) : Stmt S B :=
  fun s =>
    match m s with
    | (s', Normal a) => k a s'
    | (s', TypeError) => (s', TypeError)
    | (s', NotModelled) => (s', NotModelled)
    end.

Definition lift {S A} (c : Completion A) : Stmt S A := fun s => (s, c).

Notation "x <- m ;; k" := (bind m (fun x => k))
  (at level 61, m at next level, right associativity).
Notation "m ;;; k" := (bind m (fun _ => k))
  (at level 61, right associativity).

(** The statements of [dataToGraph] act on its frame. *)
Definition M (A : Type) : Type := Stmt Frame.t A.

(** Evaluate an expression on the current value of [data]. *)
Definition eval {A} (e : JsVal -> Completion A) : M A :=
  fun f => (f, e (Frame.data f)).

Definition read_nodes : M (list JsVal) := fun f => (f, Normal (Frame.nodes f)).
Definition read_edges : M (list JsVal) := fun f => (f, Normal (Frame.edges f)).

(** [nodes.push(v)] and [edges.push(v)] *)
Definition push_nodes (v : JsVal) : M unit :=
  fun f => ({| Frame.data := Frame.data f;
               Frame.nodes := Frame.nodes f ++ [v];
               Frame.edges := Frame.edges f |}, Normal tt).

Definition push_edges (v : JsVal) : M unit :=
  fun f => ({| Frame.data := Frame.data f;
               Frame.nodes := Frame.nodes f;
               Frame.edges := Frame.edges f ++ [v] |}, Normal tt).

(** The number of values [i = 0, 1, ...] that pass the test [i < bound]. *)
Definition trip_count (bound : JsVal) : Completion nat :=
  match bound with
  | JUndefined | JNull => Normal 0%nat
  | JBool b => Normal (if b then 1%nat else 0%nat)
  | JNum n => Normal (Z.to_nat n)
  | JStr _ | JArr _ | JObj _ => NotModelled
  end.

Fixpoint for_range (n : nat) (i : Z) (body : Z -> M unit) : M unit :=
  match n with
  | O => ret tt
  | S n' => body i ;;; for_range n' (i + 1) body
  end.

(** [for (let i = 0; i < bound; ++i) body].  The bound expressions of this
    program read [data] only, and no statement of it writes [data]: the
    bound has the value of the first test at every test. *)
Definition for_lt (bound : JsVal -> Completion JsVal) (body : Z -> M unit) : M unit :=
  b <- eval bound ;;
  n <- lift (trip_count b) ;;
  for_range n 0 body.

(** The same loop with the test [i < bound] evaluated before every
    iteration, as written; [None] when [fuel] iterations do not reach a
    failing test. *)
Fixpoint for_lt_tested (fuel : nat) (bound : JsVal -> Completion JsVal)
    (body : Z -> M unit) (i : Z) (f : Frame.t) : option (Frame.t * Completion unit) :=
  match bound (Frame.data f) with
  | Normal b =>
      match lt_num i b with
      | Normal true =>
          match fuel with
          | O => None
          | S fuel' =>
              match body i f with
              | (f', Normal _) => for_lt_tested fuel' bound body (i + 1) f'
              | (f', TypeError) => Some (f', TypeError)
              | (f', NotModelled) => Some (f', NotModelled)
              end
          end
      | Normal false => Some (f, Normal tt)
      | TypeError => Some (f, TypeError)
      | NotModelled => Some (f, NotModelled)
      end
  | TypeError => Some (f, TypeError)
  | NotModelled => Some (f, NotModelled)
  end.

Definition node_step (i : Z) : M unit :=
  v <- eval (fun data => node_object data i) ;; push_nodes v.

Definition edge_step (i : Z) : M unit :=
  v <- eval (fun data => edge_object data i) ;; push_edges v.

Definition dataToGraph_body (incRelin : bool) : M RenderGraph :=
  for_lt nodes_length node_step ;;;
  for_lt edges_length edge_step ;;;
  ns <- read_nodes ;;
  es <- read_edges ;;
  ret {| nodes := ns; edges := es |}.

(** One call: [const nodes = []; const edges = []], then the body.  The
    first component is [data] as the call leaves it. *)
Definition dataToGraph_call (data : JsVal) (incRelin : bool)
  : JsVal * Completion RenderGraph :=
  let (f, r) := dataToGraph_body incRelin
                  {| Frame.data := data; Frame.nodes := []; Frame.edges := [] |} in
  (Frame.data f, r).

Definition dataToGraph (data : JsVal) (incRelin : bool) : Completion RenderGraph :=
  snd (dataToGraph_call data incRelin).

(** ** The types of the source and their run-time shape *)

Module Typed.

Inductive FheProgramOperation : Type :=
| InputCiphertext (data : Z)
| Multiply
| Add
| Relinearize
| OutputCiphertext.

Record FheProgramNode : Type := { operation : FheProgramOperation }.

Inductive EdgeType : Type := Left | Right | Unary.

Definition FheProgramEdge : Type := (Z * Z * EdgeType)%type.

Record FheProgramGraph : Type :=
  { nodes : list FheProgramNode; edges : list FheProgramEdge }.

Definition kind (op : FheProgramOperation) : string :=
  match op with
  | InputCiphertext _ => "InputCiphertext"
  | Multiply => "Multiply"
  | Add => "Add"
  | Relinearize => "Relinearize"
  | OutputCiphertext => "OutputCiphertext"
  end.

Definition js_operation (op : FheProgramOperation) : JsVal :=
  match op with
  | InputCiphertext slot => JObj [("kind", JStr "InputCiphertext"); ("data", JNum slot)]
  | _ => JObj [("kind", JStr (kind op))]
  end.

Definition js_node (n : FheProgramNode) : JsVal :=
  JObj [("operation", js_operation (operation n))].

Definition js_role (r : EdgeType) : JsVal :=
  JStr match r with Left => "Left" | Right => "Right" | Unary => "Unary" end.

Definition js_edge (e : FheProgramEdge) : JsVal :=
  let '(s, t, r) := e in JArr [JNum s; JNum t; js_role r].

Definition js_graph (g : FheProgramGraph) : JsVal :=
  JObj [("nodes", JArr (map js_node (nodes g)));
        ("edges", JArr (map js_edge (edges g)))].

(** Every edge names two nodes of the graph. *)
Definition edges_in_range (g : FheProgramGraph) : bool :=
  let n := Z.of_nat (List.length (nodes g)) in
  forallb (fun e : FheProgramEdge =>
             let '(s, t, _) := e in
             (0 <=? s) && (s <? n) && (0 <=? t) && (t <? n))
          (edges g).

End Typed.

(** ** The sample payload *)

Definition sample_op_input (slot : Z) : JsVal :=
  JObj [("operation", JObj [("InputCiphertext", JNum slot)])].
Definition sample_op (name : string) : JsVal :=
  JObj [("operation", JStr name)].
Definition sample_edge (s t : Z) (role : string) : JsVal :=
  JArr [JNum s; JNum t; JStr role].

(** The graph inside the payload: its [nodes], [node_holes],
    [edge_property] and [edges]. *)
Definition sampleGraph : JsVal :=
  JObj [("nodes",
         JArr [sample_op_input 0; sample_op_input 1;
               sample_op_input 2; sample_op_input 3;
               sample_op "Multiply"; sample_op "Multiply";
               sample_op "Multiply"; sample_op "Add";
               sample_op "OutputCiphertext"; sample_op "OutputCiphertext";
               sample_op "Relinearize"; sample_op "Relinearize";
               sample_op "Relinearize"]);
        ("node_holes", JArr []);
        ("edge_property", JStr "directed");
        ("edges",
         JArr [sample_edge 0 4 "Left"; sample_edge 3 4 "Right";
               sample_edge 1 5 "Left"; sample_edge 2 5 "Right";
               sample_edge 1 6 "Left"; sample_edge 3 6 "Right";
               sample_edge 12 7 "Left"; sample_edge 10 7 "Right";
               sample_edge 7 8 "Unary"; sample_edge 11 9 "Unary";
               sample_edge 5 10 "Unary"; sample_edge 6 11 "Unary";
               sample_edge 4 12 "Unary"])].

(** [JSON.parse] of the literal in [App]: the graph sits two levels down,
    under [graph.graph]. *)
Definition sampleData : JsVal :=
  JObj [("graph", JObj [("graph", sampleGraph)]); ("data", JStr "Bfv")].

(** ** The selection coordinator: the state and handlers of [App] *)

(** [SelectionT] of react-digraph, the type of the [selected] state: two
    maps, each possibly [null].  A [Map] is its entries in insertion
    order. *)
Module SelectionT.
Record t : Type :=
  { nodes : option (list (string * JsVal));
    edges : option (list (string * JsVal)) }.
End SelectionT.

(** The five [useState] cells of [App], and the lines written to the
    console.  [None] is [undefined] for the two sizes and [null] for the
    selection. *)
Record AppState : Type :=
  { selectedLine : Z;
    vertSize : option (list JsVal);
    horSize : option (list JsVal);
    currGraph : RenderGraph;
    selected : option SelectionT.t;
    console : list JsVal }.

Definition H (A : Type) : Type := Stmt AppState A.

Definition setLine (n : Z) : H unit :=
  fun st => ({| selectedLine := n; vertSize := vertSize st; horSize := horSize st;
                currGraph := currGraph st; selected := selected st;
                console := console st |}, Normal tt).

Definition setGraph (g : RenderGraph) : H unit :=
  fun st => ({| selectedLine := selectedLine st; vertSize := vertSize st;
                horSize := horSize st; currGraph := g; selected := selected st;
                console := console st |}, Normal tt).

Definition select (sel : option SelectionT.t) : H unit :=
  fun st => ({| selectedLine := selectedLine st; vertSize := vertSize st;
                horSize := horSize st; currGraph := currGraph st; selected := sel;
                console := console st |}, Normal tt).

Definition console_log (v : JsVal) : H unit :=
  fun st => ({| selectedLine := selectedLine st; vertSize := vertSize st;
                horSize := horSize st; currGraph := currGraph st;
                selected := selected st; console := console st ++ [v] |}, Normal tt).

(** The object literal [graph] of [updateLine]. *)
Definition line_graph (lineNumber : Z) : RenderGraph :=
  {| nodes :=
       [JObj [("id", JNum 1);
              ("title", JStr ("line " ++ NumberToString lineNumber));
              ("type", JStr "empty"); ("x", JNum (-10)); ("y", JNum 0)];
        JObj [("id", JNum 2); ("title", JStr "test_func");
              ("type", JStr "problematic"); ("x", JNum 0); ("y", JNum 0)]];
     edges :=
       [JObj [("source", JNum 1); ("target", JNum 2); ("directed", JBool true);
              ("arrowhead", JStr "normal")]] |}.

(** [updateLine] closes over [exGraph], the graph computed by the render
    that created the handler. *)
Section Handlers.

Variable exGraph : RenderGraph.

Definition updateLine (lineNumber : Z) : H unit :=
  setLine lineNumber ;;;
  let graph := line_graph lineNumber in
  setGraph (if negb (lineNumber =? 1) then graph else exGraph).

End Handlers.

(** [selection.nodes?.values().next().value]: the read of [nodes] throws on
    a [null] selection; [?.] stops at a [null] map; the first value of an
    empty map is [undefined]. *)
Definition first_selected_node (selection : option SelectionT.t) : Completion JsVal :=
  match selection with
  | None => TypeError
  | Some s =>
      match SelectionT.nodes s with
      | None => Normal JUndefined
      | Some [] => Normal JUndefined
      | Some ((_, v) :: _) => Normal v
      end
  end.

Definition updateSelection (selection : option SelectionT.t) (e : JsVal) : H unit :=
  select selection ;;;
  v <- lift (first_selected_node selection) ;;
  console_log v.

(** The initial values of the [useState] cells. *)
Definition initialState (exGraph : RenderGraph) : AppState :=
  {| selectedLine := 0; vertSize := None; horSize := None;
     currGraph := exGraph; selected := None; console := [] |}.

(** The first render of [App] up to its [useState] calls. *)
Definition App_mount : Completion AppState :=
  let* exGraph := dataToGraph sampleData true in
  Normal (initialState exGraph).

(** *** The other handlers and components of [App] *)

(** [onResizeFinished={(p, n) => setVertSize(n)}] and its horizontal twin:
    [p] is the index of the dragged gutter, [n] the new sizes. *)
Definition setVertSize (n : option (list JsVal)) : H unit :=
  fun st => ({| selectedLine := selectedLine st; vertSize := n; horSize := horSize st;
                currGraph := currGraph st; selected := selected st;
                console := console st |}, Normal tt).

Definition setHorSize (n : option (list JsVal)) : H unit :=
  fun st => ({| selectedLine := selectedLine st; vertSize := vertSize st; horSize := n;
                currGraph := currGraph st; selected := selected st;
                console := console st |}, Normal tt).

Definition onVertResizeFinished (p : JsVal) (n : list JsVal) : H unit :=
  setVertSize (Some n).

Definition onHorResizeFinished (p : JsVal) (n : list JsVal) : H unit :=
  setHorSize (Some n).

(** [selected?.nodes?.values().next().value], the [info] prop [App] hands
    to [NodeInfo]: both reads are guarded, so a [null] selection and a
    [null] map give [undefined]. *)
Definition selected_info (sel : option SelectionT.t) : JsVal :=
  match sel with
  | None => JUndefined
  | Some s =>
      match SelectionT.nodes s with
      | None => JUndefined
      | Some [] => JUndefined
      | Some ((_, v) :: _) => v
      end
  end.

(** [NodeInfo]: the child of the paragraph it returns.  [undefined] is a
    child React renders as nothing. *)
Definition NodeInfo (info : JsVal) : JsVal :=
  match info with
  | JNull => JSON_stringify info
  | _ => JSON_stringify info
  end.

(** [CodeBlock]: the props it computes for the line [lineNumber]. *)
Module CodeBlock.

Record LineProps : Type :=
  { onClick : H unit;
    style : option (list (string * JsVal)) }.

Section Props.

Variable onClickHandler : Z -> H unit.
Variable selected_line : Z.

Definition onSelectLine (lineNumber : Z) : H unit := onClickHandler lineNumber.

Definition lineProps (lineNumber : Z) : LineProps :=
  if negb (lineNumber =? selected_line)
  then {| onClick := onSelectLine lineNumber; style := None |}
  else {| onClick := onSelectLine lineNumber;
          style := Some [("backgroundColor", JStr "saddlebrown")] |}.

End Props.

End CodeBlock.

(** What the user can do, as [App] wires it: [CodeBlock] reports clicks to
    [updateLine], the graph panel reports selections to [updateSelection],
    the two splitters report the sizes they end with. *)
Inductive Event : Type :=
| LineClicked (lineNumber : Z)
| GraphSelected (selection : option SelectionT.t) (e : JsVal)
| VertResized (p : JsVal) (n : list JsVal)
| HorResized (p : JsVal) (n : list JsVal).

Definition handle (exGraph : RenderGraph) (ev : Event) : H unit :=
  match ev with
  | LineClicked lineNumber => updateLine exGraph lineNumber
  | GraphSelected selection e => updateSelection selection e
  | VertResized p n => onVertResizeFinished p n
  | HorResized p n => onHorResizeFinished p n
  end.

(** The state after a sequence of events; a handler that throws leaves the
    state it had reached. *)
Fixpoint run (exGraph : RenderGraph) (evs : list Event) (st : AppState) : AppState :=
  match evs with
  | [] => st
  | ev :: rest => run exGraph rest (fst (handle exGraph ev st))
  end.

(** ** Definitions used in the statements *)

(** The objects [n] iterations from index [i] push, when each evaluation
    completes normally. *)
Fixpoint collect (n : nat) (i : Z) (obj : Z -> Completion JsVal)
  : Completion (list JsVal) :=
  match n with
  | O => Normal []
  | S n' =>
      let* v := obj i in
      let* l := collect n' (i + 1) obj in
      Normal (v :: l)
  end.

(** The objects one counted loop of [dataToGraph] pushes. *)
Definition loop_objects (bound : JsVal -> Completion JsVal)
    (obj : JsVal -> Z -> Completion JsVal) (data : JsVal) : Completion (list JsVal) :=
  let* b := bound data in
  let* n := trip_count b in
  collect n 0 (obj data).

(** What the two loops compute, as a function of [data]. *)
Definition translate (data : JsVal) : Completion RenderGraph :=
  let* ns := loop_objects nodes_length node_object data in
  let* es := loop_objects edges_length edge_object data in
  Normal {| nodes := ns; edges := es |}.

(** A statement that leaves [data] as it found it, however it completes. *)
Definition keeps_data {A} (m : M A) : Prop :=
  forall f, Frame.data (fst (m f)) = Frame.data f.

(** [undefined] and [null], the values a property read throws on. *)
Definition nullish (v : JsVal) : bool :=
  match v with
  | JUndefined | JNull => true
  | _ => false
  end.

(** A node entry whose [operation] can be read and is an object or a
    primitive. *)
Definition has_operation (n : JsVal) : bool :=
  match get n "operation" with
  | Normal op => negb (nullish op)
  | _ => false
  end.

(** An operation whose [kind] is one of the five variants. *)
Definition recognized (op : JsVal) : bool :=
  match get op "kind" with
  | Normal k =>
      strict_eq_str k "InputCiphertext" || strict_eq_str k "Multiply"
      || strict_eq_str k "Add" || strict_eq_str k "Relinearize"
      || strict_eq_str k "OutputCiphertext"
  | _ => false
  end.

(** The sample graph at the types of the source. *)
Definition typedSample : Typed.FheProgramGraph :=
  let node op := {| Typed.operation := op |} in
  {| Typed.nodes :=
       [node (Typed.InputCiphertext 0); node (Typed.InputCiphertext 1);
        node (Typed.InputCiphertext 2); node (Typed.InputCiphertext 3);
        node Typed.Multiply; node Typed.Multiply; node Typed.Multiply;
        node Typed.Add; node Typed.OutputCiphertext; node Typed.OutputCiphertext;
        node Typed.Relinearize; node Typed.Relinearize; node Typed.Relinearize];
     Typed.edges :=
       [(0, 4, Typed.Left); (3, 4, Typed.Right); (1, 5, Typed.Left);
        (2, 5, Typed.Right); (1, 6, Typed.Left); (3, 6, Typed.Right);
        (12, 7, Typed.Left); (10, 7, Typed.Right); (7, 8, Typed.Unary);
        (11, 9, Typed.Unary); (5, 10, Typed.Unary); (6, 11, Typed.Unary);
        (4, 12, Typed.Unary)] |}.

(** The same thirteen nodes with one more edge, from a node 99. *)
Definition danglingEdge : Typed.FheProgramGraph :=
  {| Typed.nodes := Typed.nodes typedSample;
     Typed.edges := (99, 4, Typed.Left) :: Typed.edges typedSample |}.

(** An operation of no declared variant. *)
Definition unknownOperation : JsVal := JObj [("kind", JStr "Negate")].

Definition unknownOperationGraph : JsVal :=
  JObj [("nodes", JArr [JObj [("operation", unknownOperation)]]);
        ("edges", JArr [])].

(** The render of the graph inside the payload. *)
Definition sampleRender : RenderGraph :=
  match dataToGraph sampleGraph true with
  | Normal r => r
  | _ => {| nodes := []; edges := [] |}
  end.

(** The state a handler leaves. *)
Definition after (h : H unit) (st : AppState) : AppState := fst (h st).

(** The graph inside the payload without its [node_holes] and
    [edge_property]. *)
Definition sampleGraphOnly : JsVal :=
  JObj [("nodes", match get sampleGraph "nodes" with Normal v => v | _ => JUndefined end);
        ("edges", match get sampleGraph "edges" with Normal v => v | _ => JUndefined end)].

(** The line of the last click of a sequence of events. *)
Fixpoint last_click (evs : list Event) : option Z :=
  match evs with
  | [] => None
  | ev :: rest =>
      match last_click rest with
      | Some n => Some n
      | None => match ev with LineClicked n => Some n | _ => None end
      end
  end.

(** The argument of the last selection of a sequence of events. *)
Fixpoint last_selection (evs : list Event) : option (option SelectionT.t) :=
  match evs with
  | [] => None
  | ev :: rest =>
      match last_selection rest with
      | Some sel => Some sel
      | None => match ev with GraphSelected sel _ => Some sel | _ => None end
      end
  end.

(** The values a sequence of events writes to the console: one for each
    selection that is not [null]. *)
Fixpoint logged (evs : list Event) : list JsVal :=
  match evs with
  | [] => []
  | GraphSelected (Some sel) _ :: rest => selected_info (Some sel) :: logged rest
  | _ :: rest => logged rest
  end.

(** The render node of a typed node at index [k], and of a list of typed
    nodes from index [k] on. *)
Definition typed_node_object (k : nat) (n : Typed.FheProgramNode) : JsVal :=
  match Typed.operation n with
  | Typed.InputCiphertext slot =>
      JObj [("id", JNum (Z.of_nat k)); ("title", JStr (NumberToString slot));
            ("type", JStr "input")]
  | op =>
      JObj [("id", JNum (Z.of_nat k));
            ("title", JSON_stringify (Typed.js_operation op));
            ("type", JStr "empty")]
  end.

Fixpoint typed_node_objects (k : nat) (l : list Typed.FheProgramNode) : list JsVal :=
  match l with
  | [] => []
  | n :: rest => typed_node_object k n :: typed_node_objects (S k) rest
  end.

Definition typed_edge_object (e : Typed.FheProgramEdge) : JsVal :=
  let '(s, t, role) := e in
  JObj [("source", JNum s); ("target", JNum t); ("type", Typed.js_role role)].

(** An edge of a render graph whose source and target are ids of nodes of
    that graph. *)
Definition resolves (r : RenderGraph) (e : JsVal) : Prop :=
  (exists v, In v (nodes r) /\ get v "id" = get e "source")
  /\ (exists v, In v (nodes r) /\ get v "id" = get e "target").

(** ** Loops and frames *)

Lemma bind_run A B (m : M A) (k : A -> M B) f :
  bind m k f
  = match m f with
    | (f', Normal a) => k a f'
    | (f', TypeError) => (f', TypeError)
    | (f', NotModelled) => (f', NotModelled)
    end.
Proof. reflexivity. Qed.

Lemma collect_length n : forall i obj l,
  collect n i obj = Normal l -> List.length l = n.
Proof.
  induction n as [|n IH]; intros i obj l H; simpl in H.
  - injection H as <-. reflexivity.
  - destruct (obj i); simpl in H; try discriminate.
    destruct (collect n (i + 1) obj) eqn:E; simpl in H; try discriminate.
    injection H as <-. simpl. f_equal. eapply IH; eassumption.
Qed.

Lemma collect_nth n : forall i obj l k,
  collect n i obj = Normal l -> (k < n)%nat ->
  exists v, nth_error l k = Some v /\ obj (i + Z.of_nat k) = Normal v.
Proof.
  induction n as [|n IH]; intros i obj l k H Hk; [lia|].
  simpl in H.
  destruct (obj i) as [v| |] eqn:Ev; simpl in H; try discriminate.
  destruct (collect n (i + 1) obj) as [l'| |] eqn:E; simpl in H; try discriminate.
  injection H as <-.
  destruct k as [|k].
  - exists v. split; [reflexivity|]. rewrite Z.add_0_r. exact Ev.
  - destruct (IH (i + 1) obj l' k E ltac:(lia)) as [w [Hw Hobj]].
    exists w. split; [exact Hw|].
    replace (i + Z.of_nat (S k)) with (i + 1 + Z.of_nat k) by lia. exact Hobj.
Qed.

Lemma collect_total n : forall i obj,
  (forall k, (k < n)%nat -> exists v, obj (i + Z.of_nat k) = Normal v) ->
  exists l, collect n i obj = Normal l.
Proof.
  induction n as [|n IH]; intros i obj H; simpl.
  - eexists; reflexivity.
  - destruct (H 0%nat ltac:(lia)) as [v Hv]. rewrite Z.add_0_r in Hv. rewrite Hv. simpl.
    destruct (IH (i + 1) obj) as [l Hl].
    + intros k Hk. destruct (H (S k) ltac:(lia)) as [w Hw]. exists w.
      replace (i + 1 + Z.of_nat k) with (i + Z.of_nat (S k)) by lia. exact Hw.
    + rewrite Hl. simpl. eexists; reflexivity.
Qed.

Lemma collect_In n i obj l v :
  collect n i obj = Normal l -> In v l -> exists j, obj j = Normal v.
Proof.
  intros H Hin. apply In_nth_error in Hin. destruct Hin as [k Hk].
  assert (Hlt : (k < n)%nat).
  { rewrite <- (collect_length _ _ _ _ H). apply nth_error_Some. congruence. }
  destruct (collect_nth _ _ _ _ _ H Hlt) as [w [Hw Hobj]].
  exists (i + Z.of_nat k). congruence.
Qed.

Lemma keeps_data_ret A (a : A) : keeps_data (ret a).
Proof. intros f. reflexivity. Qed.

Lemma keeps_data_lift A (c : Completion A) : keeps_data (lift c).
Proof. intros f. reflexivity. Qed.

Lemma keeps_data_eval A (e : JsVal -> Completion A) : keeps_data (eval e).
Proof. intros f. reflexivity. Qed.

Lemma keeps_data_read_nodes : keeps_data read_nodes.
Proof. intros f. reflexivity. Qed.

Lemma keeps_data_read_edges : keeps_data read_edges.
Proof. intros f. reflexivity. Qed.

Lemma keeps_data_push_nodes v : keeps_data (push_nodes v).
Proof. intros f. reflexivity. Qed.

Lemma keeps_data_push_edges v : keeps_data (push_edges v).
Proof. intros f. reflexivity. Qed.

Lemma keeps_data_bind A B (m : M A) (k : A -> M B) :
  keeps_data m -> (forall a, keeps_data (k a)) -> keeps_data (bind m k).
Proof.
  intros Hm Hk f. unfold bind. specialize (Hm f).
  destruct (m f) as [f' [a| |]]; simpl in *; try assumption.
  rewrite Hk. exact Hm.
Qed.

Lemma keeps_data_for_range body :
  (forall i, keeps_data (body i)) -> forall n i, keeps_data (for_range n i body).
Proof.
  intros Hb n. induction n as [|n IH]; intros i; simpl.
  - apply keeps_data_ret.
  - apply keeps_data_bind; [apply Hb | intros _; apply IH].
Qed.

Lemma keeps_data_for_lt bound body :
  (forall i, keeps_data (body i)) -> keeps_data (for_lt bound body).
Proof.
  intros Hb. unfold for_lt.
  apply keeps_data_bind; [apply keeps_data_eval | intros b].
  apply keeps_data_bind; [apply keeps_data_lift | intros n].
  apply keeps_data_for_range, Hb.
Qed.

Create HintDb frame discriminated.
#[local] Hint Resolve keeps_data_ret keeps_data_lift keeps_data_eval
  keeps_data_read_nodes keeps_data_read_edges keeps_data_push_nodes
  keeps_data_push_edges keeps_data_bind keeps_data_for_lt : frame.

Lemma keeps_data_node_step i : keeps_data (node_step i).
Proof. unfold node_step. auto with frame. Qed.

Lemma keeps_data_edge_step i : keeps_data (edge_step i).
Proof. unfold edge_step. auto with frame. Qed.

#[local] Hint Resolve keeps_data_node_step keeps_data_edge_step : frame.

Lemma keeps_data_dataToGraph_body incRelin : keeps_data (dataToGraph_body incRelin).
Proof. unfold dataToGraph_body. auto 10 with frame. Qed.

(** *** The counted loop is the loop as written *)

Lemma trip_count_test b n :
  trip_count b = Normal n ->
  forall j, 0 <= j -> lt_num j b = Normal (j <? Z.of_nat n).
Proof.
  intros H j Hj. destruct b as [| |[|]|z| | |]; simpl in *;
    try discriminate; injection H as <-; f_equal;
    repeat match goal with
           | |- context [?a <? ?c] => destruct (Z.ltb_spec a c)
           end; try reflexivity; lia.
Qed.

Lemma trip_count_not_modelled b :
  trip_count b = NotModelled -> forall j, lt_num j b = NotModelled.
Proof. destruct b as [| |[|]| | | |]; simpl; intros H j; try discriminate; reflexivity. Qed.

Lemma trip_count_no_throw b : trip_count b <> TypeError.
Proof. destruct b as [| |[|]| | | |]; simpl; discriminate. Qed.

Lemma for_range_tested bound body b :
  (forall i, keeps_data (body i)) ->
  forall n i f fuel,
    bound (Frame.data f) = Normal b ->
    (forall j, 0 <= j -> lt_num (i + j) b = Normal (j <? Z.of_nat n)) ->
    (n <= fuel)%nat ->
    for_lt_tested fuel bound body i f = Some (for_range n i body f).
Proof.
  intros Hkeep n. induction n as [|n IH]; intros i f fuel Hb Hlt Hfuel.
  - pose proof (Hlt 0 ltac:(lia)) as H0. rewrite Z.add_0_r in H0.
    destruct fuel; simpl; rewrite Hb, H0; reflexivity.
  - pose proof (Hlt 0 ltac:(lia)) as H0. rewrite Z.add_0_r in H0.
    destruct fuel as [|fuel]; [lia|].
    simpl. rewrite Hb, H0. simpl. unfold bind.
    pose proof (Hkeep i f) as Hd.
    destruct (body i f) as [f' [[]| |]]; simpl in Hd; try reflexivity.
    apply IH; [rewrite Hd; exact Hb | | lia].
    intros j Hj. replace (i + 1 + j) with (i + (j + 1)) by lia.
    rewrite Hlt by lia.
    f_equal. destruct (Z.ltb_spec (j + 1) (Z.of_nat (S n))), (Z.ltb_spec j (Z.of_nat n));
      try reflexivity; lia.
Qed.

(** With enough fuel the loop as written ends, and ends as [for_lt]
    does, provided its body leaves [data] alone. *)
Lemma for_lt_as_written bound body f :
  (forall i, keeps_data (body i)) ->
  exists fuel, forall fuel', (fuel <= fuel')%nat ->
    for_lt_tested fuel' bound body 0 f = Some (for_lt bound body f).
Proof.
  intros Hkeep. unfold for_lt. rewrite bind_run. unfold eval.
  destruct (bound (Frame.data f)) as [b| |] eqn:Hb.
  - rewrite bind_run. unfold lift.
    destruct (trip_count b) as [n| |] eqn:Hn.
    + exists n. intros fuel' Hfuel.
      apply (for_range_tested bound body b Hkeep); try assumption.
      intros j Hj. rewrite Z.add_0_l. apply trip_count_test; assumption.
    + exfalso. eapply trip_count_no_throw; eassumption.
    + exists 0%nat. intros fuel' _.
      destruct fuel'; simpl; rewrite Hb, (trip_count_not_modelled _ Hn); reflexivity.
  - exists 0%nat. intros fuel' _. destruct fuel'; simpl; rewrite Hb; reflexivity.
  - exists 0%nat. intros fuel' _. destruct fuel'; simpl; rewrite Hb; reflexivity.
Qed.

(** Both loops of [dataToGraph], run as written, end as the counted loops
    do. *)
Lemma dataToGraph_loops_as_written f :
  (exists fuel, forall fuel', (fuel <= fuel')%nat ->
     for_lt_tested fuel' nodes_length node_step 0 f
     = Some (for_lt nodes_length node_step f))
  /\ (exists fuel, forall fuel', (fuel <= fuel')%nat ->
        for_lt_tested fuel' edges_length edge_step 0 f
        = Some (for_lt edges_length edge_step f)).
Proof.
  split; apply for_lt_as_written; auto with frame.
Qed.

Lemma node_step_run i f :
  node_step i f
  = match node_object (Frame.data f) i with
    | Normal v => ({| Frame.data := Frame.data f;
                      Frame.nodes := Frame.nodes f ++ [v];
                      Frame.edges := Frame.edges f |}, Normal tt)
    | TypeError => (f, TypeError)
    | NotModelled => (f, NotModelled)
    end.
Proof.
  unfold node_step, bind, eval, push_nodes.
  destruct (node_object (Frame.data f) i); reflexivity.
Qed.

Lemma edge_step_run i f :
  edge_step i f
  = match edge_object (Frame.data f) i with
    | Normal v => ({| Frame.data := Frame.data f;
                      Frame.nodes := Frame.nodes f;
                      Frame.edges := Frame.edges f ++ [v] |}, Normal tt)
    | TypeError => (f, TypeError)
    | NotModelled => (f, NotModelled)
    end.
Proof.
  unfold edge_step, bind, eval, push_edges.
  destruct (edge_object (Frame.data f) i); reflexivity.
Qed.

Lemma for_range_node_step n : forall i f,
  snd (for_range n i node_step f)
  = (let* _ := collect n i (node_object (Frame.data f)) in Normal tt)
  /\ forall l, collect n i (node_object (Frame.data f)) = Normal l ->
       fst (for_range n i node_step f)
       = {| Frame.data := Frame.data f;
            Frame.nodes := Frame.nodes f ++ l;
            Frame.edges := Frame.edges f |}.
Proof.
  induction n as [|n IH]; intros i f; simpl.
  - split; [reflexivity|]. intros l H. injection H as <-.
    rewrite app_nil_r. destruct f; reflexivity.
  - unfold bind. rewrite node_step_run.
    destruct (node_object (Frame.data f) i) as [v| |]; simpl;
      try (split; [reflexivity | discriminate]).
    match goal with |- context [for_range n (i + 1) node_step ?f'] =>
      destruct (IH (i + 1) f') as [IH1 IH2] end.
    simpl in IH1, IH2. rewrite IH1. split.
    + destruct (collect n (i + 1) (node_object (Frame.data f))); reflexivity.
    + intros l H.
      destruct (collect n (i + 1) (node_object (Frame.data f))) as [l'| |];
        simpl in H; try discriminate.
      injection H as <-. rewrite (IH2 l' eq_refl). rewrite <- app_assoc. reflexivity.
Qed.

Lemma for_range_edge_step n : forall i f,
  snd (for_range n i edge_step f)
  = (let* _ := collect n i (edge_object (Frame.data f)) in Normal tt)
  /\ forall l, collect n i (edge_object (Frame.data f)) = Normal l ->
       fst (for_range n i edge_step f)
       = {| Frame.data := Frame.data f;
            Frame.nodes := Frame.nodes f;
            Frame.edges := Frame.edges f ++ l |}.
Proof.
  induction n as [|n IH]; intros i f; simpl.
  - split; [reflexivity|]. intros l H. injection H as <-.
    rewrite app_nil_r. destruct f; reflexivity.
  - unfold bind. rewrite edge_step_run.
    destruct (edge_object (Frame.data f) i) as [v| |]; simpl;
      try (split; [reflexivity | discriminate]).
    match goal with |- context [for_range n (i + 1) edge_step ?f'] =>
      destruct (IH (i + 1) f') as [IH1 IH2] end.
    simpl in IH1, IH2. rewrite IH1. split.
    + destruct (collect n (i + 1) (edge_object (Frame.data f))); reflexivity.
    + intros l H.
      destruct (collect n (i + 1) (edge_object (Frame.data f))) as [l'| |];
        simpl in H; try discriminate.
      injection H as <-. rewrite (IH2 l' eq_refl). rewrite <- app_assoc. reflexivity.
Qed.

Lemma for_lt_node_step f :
  snd (for_lt nodes_length node_step f)
  = (let* _ := loop_objects nodes_length node_object (Frame.data f) in Normal tt)
  /\ forall l, loop_objects nodes_length node_object (Frame.data f) = Normal l ->
       fst (for_lt nodes_length node_step f)
       = {| Frame.data := Frame.data f;
            Frame.nodes := Frame.nodes f ++ l;
            Frame.edges := Frame.edges f |}.
Proof.
  unfold for_lt, loop_objects. rewrite bind_run. unfold eval.
  destruct (nodes_length (Frame.data f)) as [b| |]; simpl;
    try (split; [reflexivity | discriminate]).
  rewrite bind_run. unfold lift.
  destruct (trip_count b) as [n| |]; simpl;
    try (split; [reflexivity | discriminate]).
  apply for_range_node_step.
Qed.

Lemma for_lt_edge_step f :
  snd (for_lt edges_length edge_step f)
  = (let* _ := loop_objects edges_length edge_object (Frame.data f) in Normal tt)
  /\ forall l, loop_objects edges_length edge_object (Frame.data f) = Normal l ->
       fst (for_lt edges_length edge_step f)
       = {| Frame.data := Frame.data f;
            Frame.nodes := Frame.nodes f;
            Frame.edges := Frame.edges f ++ l |}.
Proof.
  unfold for_lt, loop_objects. rewrite bind_run. unfold eval.
  destruct (edges_length (Frame.data f)) as [b| |]; simpl;
    try (split; [reflexivity | discriminate]).
  rewrite bind_run. unfold lift.
  destruct (trip_count b) as [n| |]; simpl;
    try (split; [reflexivity | discriminate]).
  apply for_range_edge_step.
Qed.

(** The call returns what [translate] computes. *)
Lemma dataToGraph_translate data incRelin :
  dataToGraph data incRelin = translate data.
Proof.
  unfold dataToGraph, dataToGraph_call, dataToGraph_body, translate.
  set (f0 := {| Frame.data := data; Frame.nodes := []; Frame.edges := [] |}).
  rewrite bind_run.
  destruct (for_lt_node_step f0) as [R1 R2].
  destruct (for_lt nodes_length node_step f0) as [f1 r1].
  simpl in R1, R2. subst r1.
  destruct (loop_objects nodes_length node_object data) as [ns| |]; simpl;
    try reflexivity.
  rewrite (R2 ns eq_refl). clear R2.
  rewrite bind_run.
  match goal with |- context [for_lt edges_length edge_step ?f] =>
    destruct (for_lt_edge_step f) as [R1 R2];
    destruct (for_lt edges_length edge_step f) as [f2 r2] end.
  simpl in R1, R2. subst r2.
  destruct (loop_objects edges_length edge_object data) as [es| |]; simpl;
    try reflexivity.
  rewrite (R2 es eq_refl). reflexivity.
Qed.

(** The call leaves [data] as it found it. *)
Lemma dataToGraph_call_data data incRelin :
  fst (dataToGraph_call data incRelin) = data.
Proof.
  unfold dataToGraph_call.
  pose proof (keeps_data_dataToGraph_body incRelin
                {| Frame.data := data; Frame.nodes := []; Frame.edges := [] |}) as H.
  destruct (dataToGraph_body _ _) as [f r]. exact H.
Qed.

(** ** Arrays *)

Lemma elem_at_of_nat l k :
  elem_at l (Z.of_nat k)
  = match nth_error l k with Some v => v | None => JUndefined end.
Proof.
  unfold elem_at.
  destruct (Z.ltb_spec (Z.of_nat k) 0) as [H|_]; [lia|].
  rewrite Nat2Z.id. reflexivity.
Qed.

Lemma trip_count_length n : trip_count (JNum (Z.of_nat n)) = Normal n.
Proof. simpl. rewrite Nat2Z.id. reflexivity. Qed.

(** A loop over [n] indexes whose evaluations all complete normally pushes
    [n] objects, the [k]-th being the one index [k] evaluates to. *)
Lemma loop_objects_total bound obj data n :
  bound data = Normal (JNum (Z.of_nat n)) ->
  (forall k, (k < n)%nat -> exists v, obj data (Z.of_nat k) = Normal v) ->
  exists l, loop_objects bound obj data = Normal l
            /\ List.length l = n
            /\ forall k v, obj data (Z.of_nat k) = Normal v -> (k < n)%nat ->
                           nth_error l k = Some v.
Proof.
  intros Hb Hobj. unfold loop_objects. rewrite Hb. simpl. rewrite Nat2Z.id.
  destruct (collect_total n 0 (obj data)) as [l Hl].
  { intros k Hk. rewrite Z.add_0_l. auto. }
  exists l. rewrite Hl. split; [reflexivity|]. split.
  - eapply collect_length; eassumption.
  - intros k v Hv Hk.
    destruct (collect_nth _ _ _ _ k Hl Hk) as [w [Hw Hw']].
    rewrite Z.add_0_l in Hw'. congruence.
Qed.

(** ** The translator on graphs of the source's type *)

Section TypedGraph.

Variable g : Typed.FheProgramGraph.

Lemma nodes_length_typed :
  nodes_length (Typed.js_graph g)
  = Normal (JNum (Z.of_nat (List.length (Typed.nodes g)))).
Proof. unfold nodes_length. simpl. rewrite length_map. reflexivity. Qed.

Lemma edges_length_typed :
  edges_length (Typed.js_graph g)
  = Normal (JNum (Z.of_nat (List.length (Typed.edges g)))).
Proof. unfold edges_length. simpl. rewrite length_map. reflexivity. Qed.

Lemma node_operation_typed k n :
  nth_error (Typed.nodes g) k = Some n ->
  node_operation (Typed.js_graph g) (Z.of_nat k)
  = Normal (Typed.js_operation (Typed.operation n)).
Proof.
  intros H. unfold node_operation. simpl.
  rewrite elem_at_of_nat, nth_error_map, H. reflexivity.
Qed.

(** The render node of a typed node: the slot in decimal and [input] for
    an [InputCiphertext], the JSON text of the operation and [empty] for
    the other four. *)
Lemma node_object_typed k n :
  nth_error (Typed.nodes g) k = Some n ->
  node_object (Typed.js_graph g) (Z.of_nat k)
  = Normal
      match Typed.operation n with
      | Typed.InputCiphertext slot =>
          JObj [("id", JNum (Z.of_nat k)); ("title", JStr (NumberToString slot));
                ("type", JStr "input")]
      | op =>
          JObj [("id", JNum (Z.of_nat k));
                ("title", JSON_stringify (Typed.js_operation op));
                ("type", JStr "empty")]
      end.
Proof.
  intros H. unfold node_object. rewrite (node_operation_typed _ _ H).
  destruct (Typed.operation n); reflexivity.
Qed.

Lemma edge_object_typed k s t role :
  nth_error (Typed.edges g) k = Some (s, t, role) ->
  edge_object (Typed.js_graph g) (Z.of_nat k)
  = Normal (JObj [("source", JNum s); ("target", JNum t);
                  ("type", Typed.js_role role)]).
Proof.
  intros H. unfold edge_object, edge_component. simpl.
  rewrite elem_at_of_nat, nth_error_map, H. reflexivity.
Qed.

Lemma nodes_loop_typed :
  exists l, loop_objects nodes_length node_object (Typed.js_graph g) = Normal l
            /\ List.length l = List.length (Typed.nodes g)
            /\ forall k v, node_object (Typed.js_graph g) (Z.of_nat k) = Normal v ->
                           (k < List.length (Typed.nodes g))%nat ->
                           nth_error l k = Some v.
Proof.
  apply loop_objects_total; [apply nodes_length_typed|].
  intros k Hk. destruct (nth_error (Typed.nodes g) k) as [n|] eqn:E.
  - rewrite (node_object_typed _ _ E). eexists; reflexivity.
  - apply nth_error_None in E. lia.
Qed.

Lemma edges_loop_typed :
  exists l, loop_objects edges_length edge_object (Typed.js_graph g) = Normal l
            /\ List.length l = List.length (Typed.edges g)
            /\ forall k v, edge_object (Typed.js_graph g) (Z.of_nat k) = Normal v ->
                           (k < List.length (Typed.edges g))%nat ->
                           nth_error l k = Some v.
Proof.
  apply loop_objects_total; [apply edges_length_typed|].
  intros k Hk. destruct (nth_error (Typed.edges g) k) as [[[s t] role]|] eqn:E.
  - rewrite (edge_object_typed _ _ _ _ E). eexists; reflexivity.
  - apply nth_error_None in E. lia.
Qed.

End TypedGraph.

(** ** The kinds of render node *)

Lemma node_object_type data i v :
  node_object data i = Normal v ->
  get v "type" = Normal (JStr "input") \/ get v "type" = Normal (JStr "empty").
Proof.
  unfold node_object. intros H.
  destruct (node_operation data i) as [op| |]; simpl in H; try discriminate.
  destruct (get op "kind") as [kind| |]; simpl in H; try discriminate.
  destruct (switch_kind kind).
  - destruct (get op "data"); simpl in H; try discriminate.
    injection H as <-. left. reflexivity.
  - injection H as <-. right. reflexivity.
Qed.

(** Whatever the input, a node the translator returns is [input] or
    [empty]. *)
Lemma dataToGraph_node_types data incRelin r v :
  dataToGraph data incRelin = Normal r -> In v (nodes r) ->
  get v "type" = Normal (JStr "input") \/ get v "type" = Normal (JStr "empty").
Proof.
  rewrite dataToGraph_translate. unfold translate, loop_objects at 1.
  intros H Hin.
  destruct (nodes_length data) as [bn| |]; simpl in H; try discriminate.
  destruct (trip_count bn) as [n| |]; simpl in H; try discriminate.
  destruct (collect n 0 (node_object data)) as [ns| |] eqn:E; simpl in H; try discriminate.
  destruct (loop_objects edges_length edge_object data); simpl in H; try discriminate.
  injection H as <-. simpl in Hin.
  destruct (collect_In _ _ _ _ _ E Hin) as [j Hj].
  eapply node_object_type; eassumption.
Qed.

(** ** The translator on arbitrary arrays of entries *)

Lemma get_not_nullish v k : nullish v = false -> exists w, get v k = Normal w.
Proof. destruct v; simpl; intros H; try discriminate; eexists; reflexivity. Qed.

Lemma get_idx_not_nullish v i : nullish v = false -> exists w, get_idx v i = Normal w.
Proof. destruct v; simpl; intros H; try discriminate; eexists; reflexivity. Qed.

Lemma switch_kind_unrecognized op kind :
  get op "kind" = Normal kind -> recognized op = false -> switch_kind kind = ArmDefault.
Proof.
  intros Hk Hr. unfold recognized in Hr. rewrite Hk in Hr.
  unfold switch_kind.
  destruct (strict_eq_str kind "InputCiphertext"); [discriminate|].
  repeat match goal with |- context [if ?b then _ else _] => destruct b end;
    reflexivity.
Qed.

Lemma get_modelled v k : get v k <> NotModelled.
Proof. destruct v; simpl; discriminate. Qed.

Lemma collect_throws n : forall i obj k,
  (k < n)%nat ->
  (forall j, (j < k)%nat -> exists v, obj (i + Z.of_nat j) = Normal v) ->
  obj (i + Z.of_nat k) = TypeError ->
  collect n i obj = TypeError.
Proof.
  induction n as [|n IH]; intros i obj k Hk Hbefore Hat; [lia|].
  simpl. destruct k as [|k].
  - rewrite Z.add_0_r in Hat. rewrite Hat. reflexivity.
  - destruct (Hbefore 0%nat ltac:(lia)) as [v Hv]. rewrite Z.add_0_r in Hv.
    rewrite Hv. simpl.
    rewrite (IH (i + 1) obj k); [reflexivity | lia | |].
    + intros j Hj. destruct (Hbefore (S j) ltac:(lia)) as [w Hw]. exists w.
      replace (i + 1 + Z.of_nat j) with (i + Z.of_nat (S j)) by lia. exact Hw.
    + replace (i + 1 + Z.of_nat k) with (i + Z.of_nat (S k)) by lia. exact Hat.
Qed.

Lemma forallb_first_false A (p : A -> bool) (l : list A) :
  forallb p l = false ->
  exists k x, nth_error l k = Some x /\ p x = false
              /\ forall j y, (j < k)%nat -> nth_error l j = Some y -> p y = true.
Proof.
  induction l as [|a l IH]; simpl; intros H; [discriminate|].
  destruct (p a) eqn:Ea.
  - destruct (IH H) as [k [x [Hk [Hx Hbefore]]]].
    exists (S k), x. split; [exact Hk|]. split; [exact Hx|].
    intros [|j] y Hj Hy; simpl in Hy.
    + injection Hy as <-. exact Ea.
    + apply (Hbefore j); [lia | exact Hy].
  - exists 0%nat, a. split; [reflexivity|]. split; [exact Ea|]. intros j y Hj. lia.
Qed.

Section Entries.

Variables (data : JsVal) (ns es : list JsVal).
Hypothesis Hnodes : get data "nodes" = Normal (JArr ns).
Hypothesis Hedges : get data "edges" = Normal (JArr es).

Lemma node_operation_entry k n :
  nth_error ns k = Some n ->
  node_operation data (Z.of_nat k) = get n "operation".
Proof.
  intros H. unfold node_operation. rewrite Hnodes. simpl.
  rewrite elem_at_of_nat, H. reflexivity.
Qed.

Lemma node_object_entry k n op :
  nth_error ns k = Some n -> get n "operation" = Normal op -> nullish op = false ->
  exists kind slot,
    get op "kind" = Normal kind /\ get op "data" = Normal slot /\
    node_object data (Z.of_nat k)
    = Normal match switch_kind kind with
             | ArmInputCiphertext =>
                 JObj [("id", JNum (Z.of_nat k)); ("title", JSON_stringify slot);
                       ("type", JStr "input")]
             | ArmDefault =>
                 JObj [("id", JNum (Z.of_nat k)); ("title", JSON_stringify op);
                       ("type", JStr "empty")]
             end.
Proof.
  intros Hn Hop Hnn.
  destruct (get_not_nullish op "kind" Hnn) as [kind Hkind].
  destruct (get_not_nullish op "data" Hnn) as [slot Hslot].
  exists kind, slot. split; [exact Hkind|]. split; [exact Hslot|].
  unfold node_object. rewrite (node_operation_entry _ _ Hn), Hop. simpl.
  rewrite Hkind. simpl. destruct (switch_kind kind); [rewrite Hslot|]; reflexivity.
Qed.

Lemma edge_object_entry k e :
  nth_error es k = Some e -> nullish e = false ->
  exists s t ty,
    get_idx e 0 = Normal s /\ get_idx e 1 = Normal t /\ get_idx e 2 = Normal ty /\
    edge_object data (Z.of_nat k)
    = Normal (JObj [("source", s); ("target", t); ("type", ty)]).
Proof.
  intros He Hnn.
  destruct (get_idx_not_nullish e 0 Hnn) as [s Hs].
  destruct (get_idx_not_nullish e 1 Hnn) as [t Ht].
  destruct (get_idx_not_nullish e 2 Hnn) as [ty Hty].
  exists s, t, ty. repeat (split; [assumption|]).
  unfold edge_object, edge_component. rewrite Hedges. simpl.
  rewrite elem_at_of_nat, He. simpl. rewrite Hs, Ht, Hty. reflexivity.
Qed.

Lemma nodes_loop_entries :
  forallb has_operation ns = true ->
  exists l, loop_objects nodes_length node_object data = Normal l
            /\ List.length l = List.length ns
            /\ forall k v, node_object data (Z.of_nat k) = Normal v ->
                           (k < List.length ns)%nat -> nth_error l k = Some v.
Proof.
  intros Hall. apply loop_objects_total.
  - unfold nodes_length. rewrite Hnodes. reflexivity.
  - intros k Hk. destruct (nth_error ns k) as [n|] eqn:E;
      [|apply nth_error_None in E; lia].
    assert (Hn : has_operation n = true).
    { eapply forallb_forall; [exact Hall | eapply nth_error_In; exact E]. }
    unfold has_operation in Hn.
    destruct (get n "operation") as [op| |] eqn:Hop; try discriminate.
    apply negb_true_iff in Hn.
    destruct (node_object_entry _ _ _ E Hop Hn) as [kind [slot [_ [_ ->]]]].
    eexists; reflexivity.
Qed.

Lemma edges_loop_entries :
  forallb (fun e => negb (nullish e)) es = true ->
  exists l, loop_objects edges_length edge_object data = Normal l
            /\ List.length l = List.length es
            /\ forall k v, edge_object data (Z.of_nat k) = Normal v ->
                           (k < List.length es)%nat -> nth_error l k = Some v.
Proof.
  intros Hall. apply loop_objects_total.
  - unfold edges_length. rewrite Hedges. reflexivity.
  - intros k Hk. destruct (nth_error es k) as [e|] eqn:E;
      [|apply nth_error_None in E; lia].
    assert (He : negb (nullish e) = true).
    { apply (proj1 (forallb_forall _ es) Hall). eapply nth_error_In; exact E. }
    apply negb_true_iff in He.
    destruct (edge_object_entry _ _ E He) as [s [t [ty [_ [_ [_ ->]]]]]].
    eexists; reflexivity.
Qed.

Lemma node_object_no_operation k n :
  nth_error ns k = Some n -> has_operation n = false ->
  node_object data (Z.of_nat k) = TypeError.
Proof.
  intros Hn Hh. unfold node_object. rewrite (node_operation_entry _ _ Hn).
  unfold has_operation in Hh.
  destruct (get n "operation") as [op| |] eqn:Hop.
  - apply negb_false_iff in Hh. destruct op; try discriminate; reflexivity.
  - reflexivity.
  - exfalso. eapply get_modelled; eassumption.
Qed.

Lemma edge_object_nullish k e :
  nth_error es k = Some e -> nullish e = true ->
  edge_object data (Z.of_nat k) = TypeError.
Proof.
  intros He Hnull. unfold edge_object, edge_component. rewrite Hedges. simpl.
  rewrite elem_at_of_nat, He. destruct e; try discriminate; reflexivity.
Qed.

Lemma nodes_loop_throws :
  forallb has_operation ns = false ->
  loop_objects nodes_length node_object data = TypeError.
Proof.
  intros Hall. destruct (forallb_first_false _ _ _ Hall) as [k [n [Hk [Hn Hbefore]]]].
  unfold loop_objects, nodes_length. rewrite Hnodes. simpl. rewrite Nat2Z.id.
  apply (collect_throws _ _ _ k).
  - apply nth_error_Some. congruence.
  - intros j Hj. rewrite Z.add_0_l.
    destruct (nth_error ns j) as [m|] eqn:Ej.
    + pose proof (Hbefore j m Hj Ej) as Hm. unfold has_operation in Hm.
      destruct (get m "operation") as [op| |] eqn:Hop; try discriminate.
      apply negb_true_iff in Hm.
      destruct (node_object_entry _ _ _ Ej Hop Hm) as [kind [slot [_ [_ ->]]]].
      eexists; reflexivity.
    + apply nth_error_None in Ej.
      assert (k < List.length ns)%nat by (apply nth_error_Some; congruence). lia.
  - rewrite Z.add_0_l. apply (node_object_no_operation _ _ Hk Hn).
Qed.

Lemma edges_loop_throws :
  forallb (fun e => negb (nullish e)) es = false ->
  loop_objects edges_length edge_object data = TypeError.
Proof.
  intros Hall. destruct (forallb_first_false _ _ _ Hall) as [k [e [Hk [He Hbefore]]]].
  unfold loop_objects, edges_length. rewrite Hedges. simpl. rewrite Nat2Z.id.
  apply (collect_throws _ _ _ k).
  - apply nth_error_Some. congruence.
  - intros j Hj. rewrite Z.add_0_l.
    destruct (nth_error es j) as [e'|] eqn:Ej.
    + pose proof (Hbefore j e' Hj Ej) as He'. apply negb_true_iff in He'.
      destruct (edge_object_entry _ _ Ej He') as [s [t [ty [_ [_ [_ ->]]]]]].
      eexists; reflexivity.
    + apply nth_error_None in Ej.
      assert (k < List.length es)%nat by (apply nth_error_Some; congruence). lia.
  - rewrite Z.add_0_l. apply negb_false_iff in He. apply (edge_object_nullish _ _ Hk He).
Qed.

End Entries.

(** ** The translator: what the source guarantees *)

(** C1, as the code has it.  [dataToGraph] validates nothing and raises no
    error of its own.  Take any input whose [nodes] and [edges] are arrays.
    If every node entry has an operation that is not [null] or [undefined]
    and no edge entry is [null] or [undefined], the call returns the whole
    output, one render node per node and one render edge per edge: each
    edge is copied component by component, whatever its indexes, and an
    operation whose kind is none of the five variants becomes an [empty]
    node labelled with the JSON text of the operation.  Otherwise the call
    throws a [TypeError] and returns nothing. *)
Theorem dataToGraph_validates_nothing (data : JsVal) (ns es : list JsVal)
    (incRelin : bool) :
  get data "nodes" = Normal (JArr ns) ->
  get data "edges" = Normal (JArr es) ->
  if forallb has_operation ns && forallb (fun e => negb (nullish e)) es
  then
    exists r,
      dataToGraph data incRelin = Normal r
      /\ List.length (nodes r) = List.length ns
      /\ List.length (edges r) = List.length es
      /\ (forall k e, nth_error es k = Some e ->
            exists s t ty,
              get_idx e 0 = Normal s /\ get_idx e 1 = Normal t
              /\ get_idx e 2 = Normal ty
              /\ nth_error (edges r) k
                 = Some (JObj [("source", s); ("target", t); ("type", ty)]))
      /\ (forall k n op, nth_error ns k = Some n ->
            get n "operation" = Normal op -> recognized op = false ->
            nth_error (nodes r) k
            = Some (JObj [("id", JNum (Z.of_nat k)); ("title", JSON_stringify op);
                          ("type", JStr "empty")]))
  else dataToGraph data incRelin = TypeError.
Proof.
  intros Hnodes Hedges.
  destruct (forallb has_operation ns) eqn:Hns; simpl.
  2:{ rewrite dataToGraph_translate. unfold translate.
      rewrite (nodes_loop_throws data ns Hnodes Hns). reflexivity. }
  destruct (nodes_loop_entries data ns Hnodes Hns) as [ln [Eln [Lln Nln]]].
  destruct (forallb (fun e => negb (nullish e)) es) eqn:Hes.
  2:{ rewrite dataToGraph_translate. unfold translate.
      rewrite Eln, (edges_loop_throws data es Hedges Hes). reflexivity. }
  destruct (edges_loop_entries data es Hedges Hes) as [le [Ele [Lle Nle]]].
  exists {| nodes := ln; edges := le |}.
  rewrite dataToGraph_translate. unfold translate. rewrite Eln, Ele. simpl.
  split; [reflexivity|]. split; [exact Lln|]. split; [exact Lle|]. split.
  - intros k e He.
    assert (Hnn : nullish e = false).
    { apply negb_true_iff.
      apply (proj1 (forallb_forall _ es) Hes). eapply nth_error_In; exact He. }
    destruct (edge_object_entry data es Hedges _ _ He Hnn) as [s [t [ty [Hs [Ht [Hty Ho]]]]]].
    exists s, t, ty. repeat (split; [assumption|]).
    apply Nle; [exact Ho|]. apply nth_error_Some. congruence.
  - intros k n op Hn Hop Hrec.
    assert (Hnn : nullish op = false).
    { assert (Hh : has_operation n = true).
      { eapply forallb_forall; [exact Hns | eapply nth_error_In; exact Hn]. }
      unfold has_operation in Hh. rewrite Hop in Hh. apply negb_true_iff. exact Hh. }
    destruct (node_object_entry data ns Hnodes _ _ _ Hn Hop Hnn)
      as [kind [slot [Hkind [_ Ho]]]].
    rewrite (switch_kind_unrecognized _ _ Hkind Hrec) in Ho.
    apply Nln; [exact Ho|]. apply nth_error_Some. congruence.
Qed.

(** The theorem at the graph of one node of unknown kind, and at a graph
    whose only node has no operation. *)
Lemma dataToGraph_validates_nothing_witness :
  (get unknownOperationGraph "nodes"
   = Normal (JArr [JObj [("operation", unknownOperation)]])
   /\ get unknownOperationGraph "edges" = Normal (JArr [])
   /\ exists r,
        dataToGraph unknownOperationGraph true = Normal r
        /\ List.length (nodes r) = 1%nat
        /\ List.length (edges r) = 0%nat
        /\ (forall k e, nth_error [] k = Some e ->
              exists s t ty,
                get_idx e 0 = Normal s /\ get_idx e 1 = Normal t
                /\ get_idx e 2 = Normal ty
                /\ nth_error (edges r) k
                   = Some (JObj [("source", s); ("target", t); ("type", ty)]))
        /\ (forall k n op,
              nth_error [JObj [("operation", unknownOperation)]] k = Some n ->
              get n "operation" = Normal op -> recognized op = false ->
              nth_error (nodes r) k
              = Some (JObj [("id", JNum (Z.of_nat k)); ("title", JSON_stringify op);
                            ("type", JStr "empty")])))
  /\ (get (JObj [("nodes", JArr [JObj []]); ("edges", JArr [])]) "nodes"
      = Normal (JArr [JObj []])
      /\ get (JObj [("nodes", JArr [JObj []]); ("edges", JArr [])]) "edges"
         = Normal (JArr [])
      /\ dataToGraph (JObj [("nodes", JArr [JObj []]); ("edges", JArr [])]) false
         = TypeError).
Proof.
  split.
  - split; [reflexivity|]. split; [reflexivity|].
    exact (dataToGraph_validates_nothing unknownOperationGraph
             [JObj [("operation", unknownOperation)]] [] true eq_refl eq_refl).
  - split; [reflexivity|]. split; [reflexivity|].
    exact (dataToGraph_validates_nothing
             (JObj [("nodes", JArr [JObj []]); ("edges", JArr [])])
             [JObj []] [] false eq_refl eq_refl).
Defined.

(** C1 fails as stated: with an edge from a node 99 in a graph of thirteen
    nodes the call returns thirteen nodes and the edge itself, and an
    operation of unknown kind is turned into an [empty] node. *)
Lemma dataToGraph_accepts_malformed :
  Typed.edges_in_range danglingEdge = false
  /\ (exists r,
        dataToGraph (Typed.js_graph danglingEdge) true = Normal r
        /\ List.length (nodes r) = 13%nat
        /\ nth_error (edges r) 0
           = Some (JObj [("source", JNum 99); ("target", JNum 4);
                         ("type", JStr "Left")]))
  /\ recognized unknownOperation = false
  /\ dataToGraph unknownOperationGraph true
     = Normal {| nodes := [JObj [("id", JNum 0);
                                 ("title", JStr ("{" ++ QuoteJSONString "kind" ++ ":"
                                                 ++ QuoteJSONString "Negate" ++ "}"));
                                 ("type", JStr "empty")]];
                 edges := [] |}.
Proof.
  split; [reflexivity|]. split.
  - eexists. split; [vm_compute; reflexivity|]. split; reflexivity.
  - split; reflexivity.
Qed.

(** C2, evaluated.  [App] passes the whole payload, which has no [nodes],
    so the call throws.  On the graph inside the payload the call returns
    thirteen nodes and thirteen edges, node 7 is [empty] with the label
    ["Add"] in quotes, but node 0 is [empty] too, labelled with the JSON
    text of [{InputCiphertext: 0}]: the payload does not tag its operations
    with [kind]. *)
Theorem dataToGraph_sample :
  dataToGraph sampleData true = TypeError
  /\ exists r,
       dataToGraph sampleGraph true = Normal r
       /\ List.length (nodes r) = 13%nat
       /\ List.length (edges r) = 13%nat
       /\ nth_error (nodes r) 0
          = Some (JObj [("id", JNum 0);
                        ("title", JStr ("{" ++ QuoteJSONString "InputCiphertext"
                                        ++ ":0}"));
                        ("type", JStr "empty")])
       /\ nth_error (nodes r) 7
          = Some (JObj [("id", JNum 7); ("title", JStr (QuoteJSONString "Add"));
                        ("type", JStr "empty")]).
Proof.
  split; [reflexivity|].
  eexists. split; [vm_compute; reflexivity|]. repeat split.
Qed.

(** [App] does not get past its first render. *)
Lemma App_mount_throws : App_mount = TypeError.
Proof. reflexivity. Qed.

(** The same graph at the types of the source is rendered as the payload
    was meant to be: node 0 is [input] with the slot for label. *)
Lemma dataToGraph_typedSample :
  exists r,
    dataToGraph (Typed.js_graph typedSample) true = Normal r
    /\ List.length (nodes r) = 13%nat
    /\ List.length (edges r) = 13%nat
    /\ nth_error (nodes r) 0
       = Some (JObj [("id", JNum 0); ("title", JStr "0"); ("type", JStr "input")])
    /\ nth_error (nodes r) 7
       = Some (JObj [("id", JNum 7);
                     ("title", JStr ("{" ++ QuoteJSONString "kind" ++ ":"
                                     ++ QuoteJSONString "Add" ++ "}"));
                     ("type", JStr "empty")]).
Proof.
  eexists. split; [vm_compute; reflexivity|]. repeat split.
Qed.


(** C4.  On a graph of the source's type the call returns as many nodes and
    as many edges as it was given, and the edge at index [i] carries the
    source, the target and the role of the input edge at index [i]. *)
Theorem dataToGraph_preserves_structure (g : Typed.FheProgramGraph) (incRelin : bool) :
  exists r,
    dataToGraph (Typed.js_graph g) incRelin = Normal r
    /\ List.length (nodes r) = List.length (Typed.nodes g)
    /\ List.length (edges r) = List.length (Typed.edges g)
    /\ forall i s t role, nth_error (Typed.edges g) i = Some (s, t, role) ->
         nth_error (edges r) i
         = Some (JObj [("source", JNum s); ("target", JNum t);
                       ("type", Typed.js_role role)]).
Proof.
  destruct (nodes_loop_typed g) as [ln [Eln [Lln Nln]]].
  destruct (edges_loop_typed g) as [le [Ele [Lle Nle]]].
  exists {| nodes := ln; edges := le |}.
  rewrite dataToGraph_translate. unfold translate. rewrite Eln, Ele. simpl.
  split; [reflexivity|]. split; [exact Lln|]. split; [exact Lle|].
  intros i s t role He.
  apply Nle; [apply edge_object_typed; exact He|].
  apply nth_error_Some. congruence.
Qed.

(** C8.  A call leaves [data] as it found it, so a second call on what the
    first one left returns the same completion and the same graph. *)
Theorem dataToGraph_repeatable (data : JsVal) (incRelin : bool) :
  fst (dataToGraph_call data incRelin) = data
  /\ dataToGraph_call (fst (dataToGraph_call data incRelin)) incRelin
     = dataToGraph_call data incRelin.
Proof.
  rewrite dataToGraph_call_data. split; reflexivity.
Qed.

(** C10.  The flag [incRelin] is never read: both values give the same
    call. *)
Theorem dataToGraph_ignores_incRelin (data : JsVal) :
  dataToGraph data true = dataToGraph data false
  /\ forall b1 b2, dataToGraph_call data b1 = dataToGraph_call data b2.
Proof. split; reflexivity. Qed.

(** ** The coordinator *)

Lemma updateLine_run exGraph lineNumber st :
  updateLine exGraph lineNumber st
  = ({| selectedLine := lineNumber; vertSize := vertSize st; horSize := horSize st;
        currGraph := if lineNumber =? 1 then exGraph else line_graph lineNumber;
        selected := selected st; console := console st |}, Normal tt).
Proof.
  unfold updateLine, bind, setLine, setGraph. simpl.
  destruct (lineNumber =? 1); reflexivity.
Qed.

Lemma updateSelection_run selection e st :
  updateSelection selection e st
  = match first_selected_node selection with
    | Normal v =>
        ({| selectedLine := selectedLine st; vertSize := vertSize st;
            horSize := horSize st; currGraph := currGraph st;
            selected := selection; console := console st ++ [v] |}, Normal tt)
    | TypeError =>
        ({| selectedLine := selectedLine st; vertSize := vertSize st;
            horSize := horSize st; currGraph := currGraph st;
            selected := selection; console := console st |}, TypeError)
    | NotModelled =>
        ({| selectedLine := selectedLine st; vertSize := vertSize st;
            horSize := horSize st; currGraph := currGraph st;
            selected := selection; console := console st |}, NotModelled)
    end.
Proof.
  unfold updateSelection, bind, select, lift, console_log. simpl.
  destruct (first_selected_node selection); reflexivity.
Qed.

(** C5, as the code has it.  For every line number [updateLine] completes
    normally and sets [selectedLine] to it; it sets [currGraph] to
    [exGraph] for line 1 and, for any other line, to the two-node graph
    built for that line. *)
Theorem updateLine_total (exGraph : RenderGraph) (lineNumber : Z) (st : AppState) :
  snd (updateLine exGraph lineNumber st) = Normal tt
  /\ selectedLine (after (updateLine exGraph lineNumber) st) = lineNumber
  /\ currGraph (after (updateLine exGraph lineNumber) st)
     = if lineNumber =? 1 then exGraph else line_graph lineNumber.
Proof.
  unfold after. rewrite updateLine_run. repeat split.
Qed.

(** C5 fails as stated: a negative line does not bring the example graph
    back, and no one graph serves the lines other than 1. *)
Lemma updateLine_no_fallback_graph :
  currGraph (after (updateLine sampleRender (-1)) (initialState sampleRender))
  <> sampleRender
  /\ ~ exists fallback, forall lineNumber st, lineNumber <> 1 ->
        currGraph (after (updateLine sampleRender lineNumber) st) = fallback.
Proof.
  split.
  - intros H. vm_compute in H. discriminate.
  - intros [fallback H].
    pose proof (H 2 (initialState sampleRender) ltac:(lia)) as H2.
    pose proof (H 3 (initialState sampleRender) ltac:(lia)) as H3.
    rewrite <- H3 in H2. vm_compute in H2. discriminate.
Qed.

(** C6, evaluated at a [null] selection: the state is written, then the
    read of [selection.nodes] throws. *)
Theorem updateSelection_null_throws (e : JsVal) (st : AppState) :
  updateSelection None e st
  = ({| selectedLine := selectedLine st; vertSize := vertSize st;
        horSize := horSize st; currGraph := currGraph st;
        selected := None; console := console st |}, TypeError).
Proof. rewrite updateSelection_run. reflexivity. Qed.

(** A selection that is not [null] is stored, whatever its maps, and the
    handler completes normally. *)
Lemma updateSelection_not_null sel e st :
  snd (updateSelection (Some sel) e st) = Normal tt
  /\ selected (after (updateSelection (Some sel) e) st) = Some sel.
Proof.
  unfold after. rewrite updateSelection_run. simpl.
  destruct (SelectionT.nodes sel) as [[|[k v] m]|]; split; reflexivity.
Qed.

(** C7.  The graph [updateLine] leaves is a function of the clicked line
    alone, with no hidden history: from any two states, a click on line [a]
    leaves the same [currGraph], namely [exGraph] for line 1 and the graph
    of the line otherwise; so clicking [a], then [b], then [a] again leaves
    the graph of the first click, for [a = 1] and [b = 2] in particular. *)
Theorem updateLine_no_history (exGraph : RenderGraph) (a b : Z) (st st' : AppState) :
  currGraph (after (updateLine exGraph a) st)
  = currGraph (after (updateLine exGraph a) st')
  /\ currGraph (after (updateLine exGraph a) st)
     = (if a =? 1 then exGraph else line_graph a)
  /\ currGraph (after (updateLine exGraph a)
                  (after (updateLine exGraph b) (after (updateLine exGraph a) st)))
     = currGraph (after (updateLine exGraph a) st)
  /\ currGraph (after (updateLine exGraph 1)
                  (after (updateLine exGraph 2) (after (updateLine exGraph 1) st)))
     = currGraph (after (updateLine exGraph 1) st).
Proof.
  unfold after. rewrite !updateLine_run. repeat split.
Qed.

(** C9.  [updateSelection] leaves [selectedLine] and [currGraph] as they
    were, whether it completes normally or throws. *)
Theorem updateSelection_frame (selection : option SelectionT.t) (e : JsVal)
    (st : AppState) :
  selectedLine (after (updateSelection selection e) st) = selectedLine st
  /\ currGraph (after (updateSelection selection e) st) = currGraph st.
Proof.
  unfold after. rewrite updateSelection_run.
  destruct (first_selected_node selection); split; reflexivity.
Qed.

(** ** Further properties of the translator *)

Lemma NumberToString_inj n m : NumberToString n = NumberToString m -> n = m.
Proof.
  unfold NumberToString. intros H.
  apply DecimalZ.to_int_inj.
  assert (P : forall z, DecimalString.NilZero.int_of_string
                          (DecimalString.NilZero.string_of_int (Z.to_int z))
                        = Some (Z.to_int z)).
  { intros z. apply DecimalString.NilZero.isi; destruct z; simpl; try discriminate;
      intros E; injection E as E; exact (DecimalPos.Unsigned.to_uint_nonnil _ E). }
  pose proof (P n) as Pn. rewrite H, P in Pn. congruence.
Qed.

Lemma collect_ext n : forall i obj obj',
  (forall j, obj j = obj' j) -> collect n i obj = collect n i obj'.
Proof.
  induction n as [|n IH]; intros i obj obj' H; simpl; [reflexivity|].
  rewrite H, (IH (i + 1) obj obj' H). reflexivity.
Qed.

Lemma node_object_id data i v :
  node_object data i = Normal v -> get v "id" = Normal (JNum i).
Proof.
  unfold node_object. intros H.
  destruct (node_operation data i) as [op| |]; simpl in H; try discriminate.
  destruct (get op "kind") as [kind| |]; simpl in H; try discriminate.
  destruct (switch_kind kind).
  - destruct (get op "data"); simpl in H; try discriminate.
    injection H as <-. reflexivity.
  - injection H as <-. reflexivity.
Qed.

Lemma translate_nodes data r :
  translate data = Normal r ->
  exists bn n, nodes_length data = Normal bn /\ trip_count bn = Normal n
               /\ collect n 0 (node_object data) = Normal (nodes r).
Proof.
  unfold translate, loop_objects at 1. intros H.
  destruct (nodes_length data) as [bn| |] eqn:Eb; simpl in H; try discriminate.
  destruct (trip_count bn) as [n| |] eqn:En; simpl in H; try discriminate.
  destruct (collect n 0 (node_object data)) as [ns| |] eqn:E; simpl in H; try discriminate.
  destruct (loop_objects edges_length edge_object data); simpl in H; try discriminate.
  injection H as <-. exists bn, n. repeat split; assumption.
Qed.

(** The id of a render node is its position, whatever the input: ids
    start at 0, have no gap and never repeat. *)
Theorem dataToGraph_ids_are_positions (data : JsVal) (incRelin : bool)
    (r : RenderGraph) (k : nat) (v : JsVal) :
  dataToGraph data incRelin = Normal r ->
  nth_error (nodes r) k = Some v ->
  get v "id" = Normal (JNum (Z.of_nat k)).
Proof.
  rewrite dataToGraph_translate. intros H Hk.
  destruct (translate_nodes _ _ H) as [bn [n [_ [_ E]]]].
  assert (Hlt : (k < n)%nat).
  { rewrite <- (collect_length _ _ _ _ E). apply nth_error_Some. congruence. }
  destruct (collect_nth _ _ _ _ k E Hlt) as [w [Hw Hobj]].
  rewrite Z.add_0_l in Hobj.
  assert (w = v) by congruence. subst w.
  eapply node_object_id; eassumption.
Qed.

Lemma dataToGraph_ids_are_positions_witness :
  dataToGraph sampleGraph true = Normal sampleRender
  /\ nth_error (nodes sampleRender) 7
     = Some (JObj [("id", JNum 7); ("title", JStr (QuoteJSONString "Add"));
                   ("type", JStr "empty")])
  /\ get (JObj [("id", JNum 7); ("title", JStr (QuoteJSONString "Add"));
                ("type", JStr "empty")]) "id"
     = Normal (JNum (Z.of_nat 7)).
Proof.
  split; [vm_compute; reflexivity|]. split; [vm_compute; reflexivity|].
  apply (dataToGraph_ids_are_positions sampleGraph true sampleRender 7);
    vm_compute; reflexivity.
Defined.

(** The call reads [data.nodes] and [data.edges] and nothing else of
    [data]: two inputs with the same two properties are translated alike. *)
Theorem dataToGraph_reads_nodes_and_edges (data data' : JsVal) (incRelin : bool) :
  get data "nodes" = get data' "nodes" ->
  get data "edges" = get data' "edges" ->
  dataToGraph data incRelin = dataToGraph data' incRelin.
Proof.
  intros Hn He. rewrite !dataToGraph_translate.
  assert (Hop : forall i, node_operation data i = node_operation data' i).
  { intros i. unfold node_operation. rewrite Hn. reflexivity. }
  assert (Hno : forall i, node_object data i = node_object data' i).
  { intros i. unfold node_object. rewrite Hop. reflexivity. }
  assert (Heo : forall i, edge_object data i = edge_object data' i).
  { intros i. unfold edge_object, edge_component. rewrite He. reflexivity. }
  unfold translate, loop_objects, nodes_length, edges_length. rewrite Hn, He.
  destruct (let* ns := get data' "nodes" in get ns "length") as [bn| |]; simpl;
    try reflexivity.
  destruct (trip_count bn) as [n| |]; simpl; try reflexivity.
  rewrite (collect_ext n 0 _ _ Hno).
  destruct (collect n 0 (node_object data')); simpl; try reflexivity.
  destruct (let* es := get data' "edges" in get es "length") as [be| |]; simpl;
    try reflexivity.
  destruct (trip_count be) as [m| |]; simpl; try reflexivity.
  rewrite (collect_ext m 0 _ _ Heo). reflexivity.
Qed.

Lemma dataToGraph_reads_nodes_and_edges_witness :
  get sampleGraph "nodes" = get sampleGraphOnly "nodes"
  /\ get sampleGraph "edges" = get sampleGraphOnly "edges"
  /\ dataToGraph sampleGraph true = dataToGraph sampleGraphOnly true.
Proof.
  split; [vm_compute; reflexivity|]. split; [vm_compute; reflexivity|].
  apply (dataToGraph_reads_nodes_and_edges sampleGraph sampleGraphOnly true);
    vm_compute; reflexivity.
Defined.

(** A missing container is a [TypeError], never an empty graph: the call
    throws when [data] is [null] or [undefined], when [data.nodes] is, and
    when [data.nodes] is an array but [data.edges] is [null] or
    [undefined], however good the nodes are. *)
Theorem dataToGraph_missing_container (data : JsVal) (incRelin : bool) :
  nullish data = true
  \/ (exists v, get data "nodes" = Normal v /\ nullish v = true)
  \/ (exists ns v, get data "nodes" = Normal (JArr ns)
                   /\ get data "edges" = Normal v /\ nullish v = true) ->
  dataToGraph data incRelin = TypeError.
Proof.
  rewrite dataToGraph_translate. unfold translate.
  intros [Hd | [[v [Hv Hn]] | [ns [v [Hns [Hv Hn]]]]]].
  - destruct data; try discriminate; reflexivity.
  - unfold loop_objects at 1, nodes_length. rewrite Hv. simpl.
    destruct v; try discriminate; reflexivity.
  - assert (He : loop_objects edges_length edge_object data = TypeError).
    { unfold loop_objects, edges_length. rewrite Hv. simpl.
      destruct v; try discriminate; reflexivity. }
    rewrite He.
    destruct (forallb has_operation ns) eqn:Hall.
    + destruct (nodes_loop_entries data ns Hns Hall) as [l [-> _]]. reflexivity.
    + rewrite (nodes_loop_throws data ns Hns Hall). reflexivity.
Qed.

Lemma dataToGraph_missing_container_witness :
  (nullish sampleData = true
   \/ (exists v, get sampleData "nodes" = Normal v /\ nullish v = true)
   \/ (exists ns v, get sampleData "nodes" = Normal (JArr ns)
                    /\ get sampleData "edges" = Normal v /\ nullish v = true))
  /\ dataToGraph sampleData false = TypeError.
Proof.
  assert (H : nullish sampleData = true
              \/ (exists v, get sampleData "nodes" = Normal v /\ nullish v = true)
              \/ (exists ns v, get sampleData "nodes" = Normal (JArr ns)
                               /\ get sampleData "edges" = Normal v
                               /\ nullish v = true)).
  { right. left. exists JUndefined. split; reflexivity. }
  split; [exact H|].
  exact (dataToGraph_missing_container sampleData false H).
Defined.

(** A container that has no [length] is taken for an empty one: when
    neither [data.nodes] nor [data.edges] has a [length] (a number, a
    boolean, an object keyed by something else), the call returns the empty
    graph and raises nothing. *)
Theorem dataToGraph_no_length (data nv ev : JsVal) (incRelin : bool) :
  get data "nodes" = Normal nv -> get nv "length" = Normal JUndefined ->
  get data "edges" = Normal ev -> get ev "length" = Normal JUndefined ->
  dataToGraph data incRelin = Normal {| nodes := []; edges := [] |}.
Proof.
  intros Hn Hnl He Hel. rewrite dataToGraph_translate.
  unfold translate, loop_objects, nodes_length, edges_length.
  rewrite Hn, He. simpl. rewrite Hnl, Hel. reflexivity.
Qed.

Lemma dataToGraph_no_length_witness :
  get (JObj [("nodes", JObj [("n0", JObj [("operation", JStr "Add")])]);
             ("edges", JNum 3)]) "nodes"
  = Normal (JObj [("n0", JObj [("operation", JStr "Add")])])
  /\ get (JObj [("n0", JObj [("operation", JStr "Add")])]) "length" = Normal JUndefined
  /\ get (JObj [("nodes", JObj [("n0", JObj [("operation", JStr "Add")])]);
                ("edges", JNum 3)]) "edges"
     = Normal (JNum 3)
  /\ get (JNum 3) "length" = Normal JUndefined
  /\ dataToGraph (JObj [("nodes", JObj [("n0", JObj [("operation", JStr "Add")])]);
                        ("edges", JNum 3)]) true
     = Normal {| nodes := []; edges := [] |}.
Proof.
  repeat (split; [reflexivity|]).
  apply (dataToGraph_no_length
           (JObj [("nodes", JObj [("n0", JObj [("operation", JStr "Add")])]);
                  ("edges", JNum 3)])
           (JObj [("n0", JObj [("operation", JStr "Add")])]) (JNum 3) true);
    reflexivity.
Defined.

Lemma serialize_defined v : v <> JUndefined -> exists s, serialize v = Some s.
Proof. destruct v; simpl; intros H; try (eexists; reflexivity). congruence. Qed.

Lemma node_object_title data i v :
  node_object data i = Normal v ->
  (exists s, get v "title" = Normal (JStr s))
  \/ (get v "title" = Normal JUndefined /\ get v "type" = Normal (JStr "input")).
Proof.
  unfold node_object. intros H.
  destruct (node_operation data i) as [op| |]; simpl in H; try discriminate.
  destruct (get op "kind") as [kind| |] eqn:Hk; simpl in H; try discriminate.
  destruct (switch_kind kind).
  - destruct (get op "data") as [slot| |]; simpl in H; try discriminate.
    injection H as <-. simpl. unfold JSON_stringify.
    destruct (serialize slot); [left; eexists; reflexivity | right; split; reflexivity].
  - injection H as <-. simpl. left.
    assert (Hop : op <> JUndefined) by (intros ->; discriminate).
    destruct (serialize_defined op Hop) as [s Hs].
    exists s. unfold JSON_stringify. rewrite Hs. reflexivity.
Qed.

(** Every render node has a string for label, with one exception: an
    [InputCiphertext] operation that has no [data] gives an [input] node
    whose title is [undefined].  An [empty] node always has its label. *)
Theorem dataToGraph_titles (data : JsVal) (incRelin : bool) (r : RenderGraph)
    (v : JsVal) :
  dataToGraph data incRelin = Normal r -> In v (nodes r) ->
  (exists s, get v "title" = Normal (JStr s))
  \/ (get v "title" = Normal JUndefined /\ get v "type" = Normal (JStr "input")).
Proof.
  rewrite dataToGraph_translate. intros H Hin.
  destruct (translate_nodes _ _ H) as [bn [n [_ [_ E]]]].
  destruct (collect_In _ _ _ _ _ E Hin) as [j Hj].
  eapply node_object_title; eassumption.
Qed.

Lemma dataToGraph_titles_witness :
  dataToGraph
    (JObj [("nodes", JArr [JObj [("operation", JObj [("kind", JStr "InputCiphertext")])]]);
           ("edges", JArr [])]) true
  = Normal {| nodes := [JObj [("id", JNum 0); ("title", JUndefined);
                              ("type", JStr "input")]];
              edges := [] |}
  /\ In (JObj [("id", JNum 0); ("title", JUndefined); ("type", JStr "input")])
        [JObj [("id", JNum 0); ("title", JUndefined); ("type", JStr "input")]]
  /\ ((exists s, get (JObj [("id", JNum 0); ("title", JUndefined);
                            ("type", JStr "input")]) "title" = Normal (JStr s))
      \/ (get (JObj [("id", JNum 0); ("title", JUndefined); ("type", JStr "input")])
              "title" = Normal JUndefined
          /\ get (JObj [("id", JNum 0); ("title", JUndefined); ("type", JStr "input")])
                 "type" = Normal (JStr "input"))).
Proof.
  split; [reflexivity|]. split; [left; reflexivity|].
  apply (dataToGraph_titles
           (JObj [("nodes",
                   JArr [JObj [("operation", JObj [("kind", JStr "InputCiphertext")])]]);
                  ("edges", JArr [])]) true
           {| nodes := [JObj [("id", JNum 0); ("title", JUndefined);
                              ("type", JStr "input")]];
              edges := [] |}).
  - reflexivity.
  - left. reflexivity.
Defined.

(** *** Graphs of the source's type, in closed form *)

Lemma nth_error_typed_node_objects l : forall k i,
  nth_error (typed_node_objects k l) i
  = option_map (typed_node_object (k + i)) (nth_error l i).
Proof.
  induction l as [|n l IH]; intros k i; simpl.
  - destruct i; reflexivity.
  - destruct i as [|i]; simpl.
    + rewrite Nat.add_0_r. reflexivity.
    + rewrite IH. replace (S k + i)%nat with (k + S i)%nat by lia. reflexivity.
Qed.

Lemma length_typed_node_objects l : forall k,
  List.length (typed_node_objects k l) = List.length l.
Proof. induction l as [|n l IH]; intros k; simpl; [reflexivity | rewrite IH; reflexivity]. Qed.

Lemma typed_node_objects_app l l' : forall k,
  typed_node_objects k (l ++ l')%list
  = (typed_node_objects k l ++ typed_node_objects (k + List.length l) l')%list.
Proof.
  induction l as [|n l IH]; intros k; simpl.
  - rewrite Nat.add_0_r. reflexivity.
  - rewrite IH. replace (S k + List.length l)%nat with (k + S (List.length l))%nat by lia.
    reflexivity.
Qed.

Lemma typed_node_object_id k n :
  get (typed_node_object k n) "id" = Normal (JNum (Z.of_nat k)).
Proof. unfold typed_node_object. destruct (Typed.operation n); reflexivity. Qed.

(** The whole output on a graph of the source's type. *)
Lemma dataToGraph_typed g incRelin :
  dataToGraph (Typed.js_graph g) incRelin
  = Normal {| nodes := typed_node_objects 0 (Typed.nodes g);
              edges := map typed_edge_object (Typed.edges g) |}.
Proof.
  destruct (nodes_loop_typed g) as [ln [Eln [Lln Nln]]].
  destruct (edges_loop_typed g) as [le [Ele [Lle Nle]]].
  rewrite dataToGraph_translate. unfold translate. rewrite Eln, Ele. simpl.
  f_equal. f_equal.
  - apply nth_error_ext. intros i. rewrite nth_error_typed_node_objects. simpl.
    destruct (nth_error (Typed.nodes g) i) as [n|] eqn:E; simpl.
    + apply Nln; [apply node_object_typed; exact E|].
      apply nth_error_Some. congruence.
    + apply nth_error_None. rewrite Lln. apply nth_error_None. exact E.
  - apply nth_error_ext. intros i. rewrite nth_error_map.
    destruct (nth_error (Typed.edges g) i) as [[[s t] role]|] eqn:E; simpl.
    + apply Nle; [apply edge_object_typed; exact E|].
      apply nth_error_Some. congruence.
    + apply nth_error_None. rewrite Lle. apply nth_error_None. exact E.
Qed.

Lemma In_typed_node_objects v l :
  In v (typed_node_objects 0 l)
  <-> exists k n, nth_error l k = Some n /\ v = typed_node_object k n.
Proof.
  split.
  - intros H. apply In_nth_error in H. destruct H as [k Hk].
    rewrite nth_error_typed_node_objects in Hk. simpl in Hk.
    destruct (nth_error l k) as [n|] eqn:E; simpl in Hk; [|discriminate].
    exists k, n. split; [exact E | congruence].
  - intros [k [n [Hk ->]]]. apply (nth_error_In _ k).
    rewrite nth_error_typed_node_objects, Hk. reflexivity.
Qed.

Lemma id_in_typed_node_objects l (z : Z) :
  (exists v, In v (typed_node_objects 0 l) /\ get v "id" = Normal (JNum z))
  <-> 0 <= z < Z.of_nat (List.length l).
Proof.
  split.
  - intros [v [Hin Hid]]. apply In_typed_node_objects in Hin.
    destruct Hin as [k [n [Hk ->]]]. rewrite typed_node_object_id in Hid.
    injection Hid as <-.
    assert (k < List.length l)%nat by (apply nth_error_Some; congruence). lia.
  - intros Hz.
    destruct (nth_error l (Z.to_nat z)) as [n|] eqn:E.
    + exists (typed_node_object (Z.to_nat z) n). split.
      * apply In_typed_node_objects. eauto.
      * rewrite typed_node_object_id. rewrite Z2Nat.id by lia. reflexivity.
    + apply nth_error_None in E. lia.
Qed.

(** On a graph of the source's type, the render graph has no dangling edge
    exactly when every input edge names two nodes of the graph: the source
    and the target of every render edge are then ids of render nodes, and
    otherwise some render edge points at no node. *)
Theorem dataToGraph_edges_resolve (g : Typed.FheProgramGraph) (incRelin : bool) :
  exists r,
    dataToGraph (Typed.js_graph g) incRelin = Normal r
    /\ (Typed.edges_in_range g = true <-> forall e, In e (edges r) -> resolves r e).
Proof.
  eexists. split; [apply dataToGraph_typed|]. unfold resolves. simpl.
  unfold Typed.edges_in_range. rewrite forallb_forall. split.
  - intros H e He. apply in_map_iff in He. destruct He as [[[s t] role] [<- Hin]].
    specialize (H _ Hin). simpl in H.
    rewrite !andb_true_iff in H. destruct H as [[[H1 H2] H3] H4].
    split; apply id_in_typed_node_objects; simpl; lia.
  - intros H [[s t] role] Hin.
    destruct (H (typed_edge_object (s, t, role))) as [Hs Ht].
    { apply in_map. exact Hin. }
    apply id_in_typed_node_objects in Hs, Ht. simpl in Hs, Ht.
    rewrite !andb_true_iff. repeat split; lia.
Qed.

Lemma typed_node_object_inj k n n' :
  typed_node_object k n = typed_node_object k n' -> n = n'.
Proof.
  destruct n as [op], n' as [op']. unfold typed_node_object. simpl.
  destruct op, op'; intros H; try reflexivity; try discriminate H;
    try (vm_compute in H; discriminate H).
  injection H as H. apply NumberToString_inj in H. subst. reflexivity.
Qed.

Lemma typed_node_objects_inj l : forall l' k,
  typed_node_objects k l = typed_node_objects k l' -> l = l'.
Proof.
  induction l as [|n l IH]; intros [|n' l'] k H; simpl in H;
    try reflexivity; try discriminate.
  injection H as H1 H2. f_equal.
  - eapply typed_node_object_inj; exact H1.
  - eapply IH; exact H2.
Qed.

Lemma typed_edge_object_inj e e' :
  typed_edge_object e = typed_edge_object e' -> e = e'.
Proof.
  destruct e as [[s t] role], e' as [[s' t'] role']. simpl.
  destruct role, role'; intros H; try discriminate H; injection H as -> ->; reflexivity.
Qed.

Lemma map_typed_edge_object_inj l : forall l',
  map typed_edge_object l = map typed_edge_object l' -> l = l'.
Proof.
  induction l as [|e l IH]; intros [|e' l'] H; simpl in H;
    try reflexivity; try discriminate.
  injection H as H1 H2. f_equal; [apply typed_edge_object_inj; exact H1 | apply IH; exact H2].
Qed.

(** The translation loses nothing on graphs of the source's type: two
    graphs with the same render are the same graph, operations, slots,
    edges and roles included. *)
Theorem dataToGraph_lossless (g g' : Typed.FheProgramGraph) (incRelin : bool) :
  dataToGraph (Typed.js_graph g) incRelin = dataToGraph (Typed.js_graph g') incRelin ->
  g = g'.
Proof.
  rewrite !dataToGraph_typed. intros H. injection H as Hn He.
  destruct g as [ns es], g' as [ns' es']. simpl in *.
  f_equal; [eapply typed_node_objects_inj | apply map_typed_edge_object_inj]; eassumption.
Qed.

Lemma dataToGraph_lossless_witness :
  dataToGraph (Typed.js_graph typedSample) true
  = dataToGraph (Typed.js_graph typedSample) true
  /\ typedSample = typedSample.
Proof.
  split; [reflexivity|].
  exact (dataToGraph_lossless typedSample typedSample true eq_refl).
Defined.

(** Ids are stable under growth: nodes and edges added at the end of a
    graph of the source's type leave the render of the earlier ones as it
    was and only add render nodes and render edges after them. *)
Theorem dataToGraph_append (g : Typed.FheProgramGraph)
    (ns : list Typed.FheProgramNode) (es : list Typed.FheProgramEdge)
    (incRelin : bool) :
  exists r r',
    dataToGraph (Typed.js_graph g) incRelin = Normal r
    /\ dataToGraph (Typed.js_graph {| Typed.nodes := (Typed.nodes g ++ ns)%list;
                                      Typed.edges := (Typed.edges g ++ es)%list |})
                    incRelin
       = Normal r'
    /\ nodes r' = (nodes r ++ typed_node_objects (List.length (Typed.nodes g)) ns)%list
    /\ edges r' = (edges r ++ map typed_edge_object es)%list.
Proof.
  eexists. eexists. split; [apply dataToGraph_typed|].
  split; [apply dataToGraph_typed|]. simpl. split.
  - apply typed_node_objects_app.
  - apply map_app.
Qed.

(** ** Further properties of the coordinator *)

Lemma handle_line exGraph ev st :
  selectedLine (fst (handle exGraph ev st))
  = match ev with LineClicked n => n | _ => selectedLine st end
  /\ currGraph (fst (handle exGraph ev st))
     = match ev with
       | LineClicked n => if n =? 1 then exGraph else line_graph n
       | _ => currGraph st
       end.
Proof.
  destruct ev as [n|sel e|p n|p n]; unfold handle.
  - rewrite updateLine_run. split; reflexivity.
  - rewrite updateSelection_run. destruct (first_selected_node sel); split; reflexivity.
  - split; reflexivity.
  - split; reflexivity.
Qed.

Lemma handle_selection exGraph ev st :
  selected (fst (handle exGraph ev st))
  = match ev with GraphSelected sel _ => sel | _ => selected st end
  /\ console (fst (handle exGraph ev st))
     = (console st ++ logged [ev])%list.
Proof.
  destruct ev as [n|sel e|p n|p n]; unfold handle.
  - rewrite updateLine_run. simpl. rewrite app_nil_r. split; reflexivity.
  - rewrite updateSelection_run.
    destruct sel as [s|]; simpl.
    + destruct (SelectionT.nodes s) as [[|[k v] m]|]; split; reflexivity.
    + rewrite app_nil_r. split; reflexivity.
  - simpl. rewrite app_nil_r. split; reflexivity.
  - simpl. rewrite app_nil_r. split; reflexivity.
Qed.

Lemma logged_cons ev evs : logged (ev :: evs) = (logged [ev] ++ logged evs)%list.
Proof. destruct ev as [n|[s|] e|p n|p n]; reflexivity. Qed.

(** The last click wins, whatever happens around it: after any sequence of
    clicks, selections and resizes, [selectedLine] is the line of the last
    click and [currGraph] the graph of that line; with no click in the
    sequence both are as they were. *)
Theorem run_last_click (exGraph : RenderGraph) (evs : list Event) (st : AppState) :
  selectedLine (run exGraph evs st)
  = match last_click evs with Some n => n | None => selectedLine st end
  /\ currGraph (run exGraph evs st)
     = match last_click evs with
       | Some n => if n =? 1 then exGraph else line_graph n
       | None => currGraph st
       end.
Proof.
  revert st. induction evs as [|ev evs IH]; intros st; simpl.
  - split; reflexivity.
  - destruct (IH (fst (handle exGraph ev st))) as [IH1 IH2].
    destruct (handle_line exGraph ev st) as [H1 H2].
    rewrite IH1, IH2, H1, H2.
    destruct (last_click evs); [split; reflexivity|].
    destruct ev; split; reflexivity.
Qed.

(** The selection cell holds the argument of the last selection, [null]
    included, and the console holds one more value for each selection
    that was not [null], in the order they came: the first node of the
    selection, or [undefined] when it has none.  Clicks and resizes touch
    neither. *)
Theorem run_selections (exGraph : RenderGraph) (evs : list Event) (st : AppState) :
  selected (run exGraph evs st)
  = match last_selection evs with Some sel => sel | None => selected st end
  /\ console (run exGraph evs st) = (console st ++ logged evs)%list.
Proof.
  revert st. induction evs as [|ev evs IH]; intros st.
  - simpl. rewrite app_nil_r. split; reflexivity.
  - destruct (IH (fst (handle exGraph ev st))) as [IH1 IH2].
    destruct (handle_selection exGraph ev st) as [H1 H2].
    change (run exGraph (ev :: evs) st) with (run exGraph evs (fst (handle exGraph ev st))).
    rewrite IH1, IH2, H1, H2, (logged_cons ev evs), app_assoc.
    split; [|reflexivity].
    simpl. destruct (last_selection evs); [reflexivity|].
    destruct ev; reflexivity.
Qed.

(** The two handlers act on different cells: a click and a selection leave
    the same state in either order, also when the selection is [null] and
    its handler throws. *)
Theorem updateLine_updateSelection_commute (exGraph : RenderGraph) (lineNumber : Z)
    (selection : option SelectionT.t) (e : JsVal) (st : AppState) :
  after (updateLine exGraph lineNumber) (after (updateSelection selection e) st)
  = after (updateSelection selection e) (after (updateLine exGraph lineNumber) st).
Proof.
  unfold after. rewrite !updateLine_run, !updateSelection_run.
  destruct (first_selected_node selection); reflexivity.
Qed.

(** Clicking a line in the code panel highlights that line and no other:
    after the [onClick] that [lineProps] gave line [n] has run, the props of
    a line [m] carry the highlight style exactly when [m] is [n], whichever
    line was highlighted before. *)
Theorem CodeBlock_click_highlights (exGraph : RenderGraph) (highlighted n m : Z)
    (st : AppState) :
  CodeBlock.style
    (CodeBlock.lineProps (updateLine exGraph)
       (selectedLine
          (after (CodeBlock.onClick
                    (CodeBlock.lineProps (updateLine exGraph) highlighted n)) st))
       m)
  = if m =? n then Some [("backgroundColor", JStr "saddlebrown")] else None.
Proof.
  assert (E : CodeBlock.onClick (CodeBlock.lineProps (updateLine exGraph) highlighted n)
              = updateLine exGraph n).
  { unfold CodeBlock.lineProps. destruct (negb (n =? highlighted)); reflexivity. }
  rewrite E. unfold after. rewrite updateLine_run. simpl.
  unfold CodeBlock.lineProps. destruct (m =? n); reflexivity.
Qed.

(** The info panel and the console agree.  When [updateSelection]
    completes, the value it logged is the [info] the next render hands to
    [NodeInfo]; when it throws, on a [null] selection, nothing is logged,
    the render still goes through, [info] is [undefined] and the panel
    shows nothing. *)
Theorem info_after_selection (selection : option SelectionT.t) (e : JsVal)
    (st : AppState) :
  match snd (updateSelection selection e st) with
  | Normal _ =>
      console (after (updateSelection selection e) st)
      = (console st ++ [selected_info (selected (after (updateSelection selection e) st))])%list
  | _ =>
      selection = None
      /\ console (after (updateSelection selection e) st) = console st
      /\ NodeInfo (selected_info (selected (after (updateSelection selection e) st)))
         = JUndefined
  end.
Proof.
  unfold after. rewrite updateSelection_run.
  destruct selection as [[[[|[k v] m]|] es]|]; simpl.
  - reflexivity.
  - reflexivity.
  - reflexivity.
  - repeat split.
Qed.

Lemma line_graph_inj n m : line_graph n = line_graph m -> n = m.
Proof.
  unfold line_graph. intros H. injection H as H.
  apply NumberToString_inj. exact H.
Qed.

(** The graph on display tells the clicked line: two different lines,
    neither of them line 1, never leave the same graph. *)
Theorem updateLine_distinct_lines (exGraph : RenderGraph) (a b : Z) (st : AppState) :
  a <> 1 -> b <> 1 -> a <> b ->
  currGraph (after (updateLine exGraph a) st)
  <> currGraph (after (updateLine exGraph b) st).
Proof.
  intros Ha Hb Hab. unfold after. rewrite !updateLine_run. simpl.
  destruct (Z.eqb_spec a 1) as [|_]; [contradiction|].
  destruct (Z.eqb_spec b 1) as [|_]; [contradiction|].
  intros H. apply Hab. apply line_graph_inj. exact H.
Qed.

Lemma updateLine_distinct_lines_witness :
  2 <> 1 /\ 3 <> 1 /\ 2 <> 3
  /\ currGraph (after (updateLine sampleRender 2) (initialState sampleRender))
     <> currGraph (after (updateLine sampleRender 3) (initialState sampleRender)).
Proof.
  split; [lia|]. split; [lia|]. split; [lia|].
  apply (updateLine_distinct_lines sampleRender 2 3 (initialState sampleRender)); lia.
Defined.

(** When [exGraph] is a graph the translator returned, it is on display
    after a click exactly when the clicked line is 1: the graph of any
    other line has a [problematic] node, which the translator never
    makes. *)
Theorem updateLine_shows_example_iff (data : JsVal) (incRelin : bool)
    (exGraph : RenderGraph) (lineNumber : Z) (st : AppState) :
  dataToGraph data incRelin = Normal exGraph ->
  (currGraph (after (updateLine exGraph lineNumber) st) = exGraph <-> lineNumber = 1).
Proof.
  intros Hex. unfold after. rewrite updateLine_run. simpl.
  destruct (Z.eqb_spec lineNumber 1) as [->|Hne]; [split; reflexivity|].
  split; [|contradiction].
  intros H. exfalso.
  assert (Hin : In (JObj [("id", JNum 2); ("title", JStr "test_func");
                          ("type", JStr "problematic"); ("x", JNum 0); ("y", JNum 0)])
                   (nodes exGraph)).
  { rewrite <- H. simpl. right. left. reflexivity. }
  destruct (dataToGraph_node_types _ _ _ _ Hex Hin) as [T|T]; discriminate T.
Qed.

Lemma updateLine_shows_example_iff_witness :
  dataToGraph sampleGraph true = Normal sampleRender
  /\ (currGraph (after (updateLine sampleRender 4) (initialState sampleRender))
      = sampleRender <-> 4 = 1).
Proof.
  split; [vm_compute; reflexivity|].
  apply (updateLine_shows_example_iff sampleGraph true sampleRender 4
           (initialState sampleRender)).
  vm_compute; reflexivity.
Defined.
